(** * extract_metadata.py: a shallow embedding and its verified properties

    The script downloads a run archive through the Seqera Platform client,
    picks two JSON members out of it, flattens a fixed list of dotted keys
    from each and writes the merged mapping as one JSON document.

    Python values are modelled as they are at run time:
    - a decoded JSON document is a value of [json]; Python's [None] is
      [JNull], exactly as [json.load] decodes [null];
    - a [dict] is an insertion-ordered association list with unique keys,
      updated by [Dict.set] (assignment to an existing key keeps the key's
      position, a new key goes last);
    - a raised exception is the [Raise] branch of [result];
    - the file system and the log are threaded through [main] in a small
      state-and-exception monad. *)

From Stdlib Require Import List String Ascii ZArith Bool Lia.
Import ListNotations.
Local Open Scope string_scope.
Local Open Scope list_scope.

Local Set Warnings "-register-all".

(** ** Exceptions and results *)

Inductive exn : Type :=
| AttributeError
| KeyError
| TypeError
| ValueError (msg : string)
| JSONDecodeError (msg : string)
| FileNotFoundError
| ReadError
| ClientError (msg : string).

Inductive result (A : Type) : Type :=
| Ok (a : A)
| Raise (e : exn).

Arguments Ok {A} a.
Arguments Raise {A} e.

(** ** JSON values as [json.load] returns them *)

Inductive json : Type :=
| JNull
| JBool (b : bool)
| JInt (z : Z)
| JFloat (literal : string)
| JString (s : string)
| JArray (items : list json)
| JObject (fields : list (string * json)).

Definition dict : Type := list (string * json).

Definition is_None (v : json) : bool :=
  match v with
  | JNull => true
  | _ => false
  end.

(** ** Python dict operations *)

Module Dict.

Definition keys (d : dict) : list string := map fst d.

(** [k in d] / lookup of the binding of [k]. *)
Fixpoint lookup (k : string) (d : dict) : option json :=
  match d with
  | [] => None
  | (k', v) :: rest => if String.eqb k' k then Some v else lookup k rest
  end.

(** [d.get(k)]: the bound value, [None] when [k] is not a key. *)
Definition get (d : dict) (k : string) : json :=
  match lookup k d with
  | Some v => v
  | None => JNull
  end.

(** [d[k] = v]. *)
Fixpoint set (k : string) (v : json) (d : dict) : dict :=
  match d with
  | [] => [(k, v)]
  | (k', v') :: rest =>
      if String.eqb k' k then (k', v) :: rest else (k', v') :: set k v rest
  end.

(** [d.update(other)], also the effect of [**other] in a dict display. *)
Definition update (d other : dict) : dict :=
  fold_left (fun acc kv => set (fst kv) (snd kv) acc) other d.

(** The dict display [{**a, **b}]. *)
Definition merge (a b : dict) : dict := update (update [] a) b.

End Dict.

(** ** [str.split(sep)] for a one-character separator *)

Fixpoint split (sep : ascii) (s : string) : list string :=
  match s with
  | EmptyString => [EmptyString]
  | String c rest =>
      if Ascii.eqb c sep then EmptyString :: split sep rest
      else match split sep rest with
           | [] => [String c EmptyString]
           | part :: parts => String c part :: parts
           end
  end.

(** ** parse_json *)

(** [value.get(part)]: only a dict has a [get] attribute. *)
Definition attr_get (value : json) (part : string) : result json :=
  match value with
  | JObject fields => Ok (Dict.get fields part)
  | _ => Raise AttributeError
  end.

(** How the inner [for part in key.split(".")] loop ends: it runs to
    exhaustion (and its [else] clause fires), it leaves through [break], or a
    statement of its body raises. *)
Inductive walk_end : Type :=
| Exhausted (value : json)
| Broke
| Raised (e : exn).

Fixpoint walk (value : json) (parts : list string) : walk_end :=
  match parts with
  | [] => Exhausted value
  | part :: rest =>
      match attr_get value part with
      | Raise e => Raised e
      | Ok value' => if is_None value' then Broke else walk value' rest
      end
  end.

Definition resolve (json_data : json) (key : string) : walk_end :=
  walk json_data (split "." key).

(** [except (KeyError, TypeError)] *)
Definition caught (e : exn) : bool :=
  match e with
  | KeyError | TypeError => true
  | _ => false
  end.

Fixpoint parse_json_loop (json_data : json) (keys_list : list string)
    (update_dict : dict) : result dict :=
  match keys_list with
  | [] => Ok update_dict
  | key :: rest =>
      match resolve json_data key with
      | Exhausted value =>
          parse_json_loop json_data rest (Dict.set key value update_dict)
      | Broke => parse_json_loop json_data rest update_dict
      | Raised e =>
          if caught e
          then parse_json_loop json_data rest (Dict.set key JNull update_dict)
          else Raise e
      end
  end.

Definition parse_json (json_data : json) (keys_list : list string)
    : result dict :=
  parse_json_loop json_data keys_list [].

(** ** The world [main] runs in *)

(** A member of a tar archive: its name and the bytes [tar.extractfile]
    gives for it.  Members are regular files, as [tw runs dump] writes them. *)
Record TarInfo : Type := mkTarInfo { name : string; content : string }.

Inductive file : Type :=
| GzTar (members : list TarInfo)
| Plain (text : string).

(** [unwritable w p] is what [open(p, "w")] raises in [w] when it raises:
    [p] names a directory, lies below a missing directory, or may not be
    written.  The script changes none of that. *)
Record world : Type := mkWorld {
  files : string -> option file;
  log_level : string;
  log : list string;
  unwritable : string -> option exn
}.

(** State and exceptions: a computation maps the world to a result and the
    world at the point it returned or raised. *)
Definition M (A : Type) : Type := world -> result A * world.

Definition ret {A : Type} (a : A) : M A := fun w => (Ok a, w).

Definition raise {A : Type} (e : exn) : M A := fun w => (Raise e, w).

Definition lift {A : Type} (r : result A) : M A := fun w => (r, w).

Definition bind {A B : Type} (m : M A) (f : A -> M B) : M B :=
  fun w =>
    match m w with
    | (Ok a, w') => f a w'
    | (Raise e, w') => (Raise e, w')
    end.

Declare Scope py_scope.
Delimit Scope py_scope with py.
Notation "x <- c ;; k" := (bind c (fun x => k))
  (at level 61, c at next level, right associativity) : py_scope.
Notation "c ;; k" := (bind c (fun _ => k))
  (at level 61, right associativity) : py_scope.

(** [logging.basicConfig(level=...)] and [logging.info(msg)]. *)
Definition logging_basicConfig (level : string) : M unit :=
  fun w => (Ok tt, mkWorld (files w) level (log w) (unwritable w)).

Definition info_enabled (level : string) : bool :=
  String.eqb level "INFO" || String.eqb level "DEBUG".

Definition logging_info (msg : string) : M unit :=
  fun w =>
    (Ok tt,
     if info_enabled (log_level w)
     then mkWorld (files w) (log_level w) (log w ++ [msg]) (unwritable w)
     else w).

(** [tarfile.open(path, "r:gz")] followed by [tar.getmembers()]. *)
Definition tarfile_open (fs : string -> option file) (path : string)
    : result (list TarInfo) :=
  match fs path with
  | None => Raise FileNotFoundError
  | Some (Plain _) => Raise ReadError
  | Some (GzTar members) => Ok members
  end.

(** [with open(path, "w") as f: f.write(text)]: [open] raises at a path that
    cannot be written and touches no file then; otherwise the file at [path]
    is created or replaced and holds [text]. *)
Definition write_file (path text : string) : M unit :=
  fun w =>
    match unwritable w path with
    | Some e => (Raise e, w)
    | None =>
        (Ok tt,
         mkWorld
           (fun p => if String.eqb p path then Some (Plain text) else files w p)
           (log_level w) (log w) (unwritable w))
    end.

(** [x in names] on a tuple of strings. *)
Definition py_in (x : string) (names : list string) : bool :=
  existsb (String.eqb x) names.

(** The parsed command line. *)
Record Namespace : Type := mkNamespace {
  arg_log_level : string;
  output : string;
  workspace : string;
  workflow_id : string
}.

Definition workflow_load_keys : list string :=
  [ "cpuEfficiency";
    "memoryEfficiency";
    "cost";
    "readBytes";
    "writeBytes";
    "peakCpus";
    "peakMemory";
    "dateCreated";
    "lastUpdated" ].

Definition workflow_keys : list string :=
  [ "status";
    "repository";
    "id";
    "submit";
    "start";
    "complete";
    "dateCreated";
    "lastUpdated";
    "runName";
    "projectName";
    "commitId";
    "sessionId";
    "userName";
    "commandLine";
    "params";
    "configFiles";
    "configText";
    "duration";
    "params.input";
    "params.outdir" ].

Definition missing_files_message : string :=
  "Required workflow files not found in the tar archive.".

Section Script.

Local Open Scope py_scope.

(** The libraries the script calls: [json.load] on a member's bytes,
    [json.dumps(obj, indent=4)], the constructor of the platform client and
    the client's [runs].  The client object holds nothing the script reads. *)
Variable json_load : string -> result json.
Variable json_dumps : json -> string.
Variable SeqeraPlatform : M unit.
Variable seqera_runs : list string -> M unit.

Definition get_runs_dump (workflow_id workspace : string) : M string :=
  let output_file := (workflow_id ++ ".tar.gz")%string in
  seqera_runs ["dump"; "-id"; workflow_id; "-o"; output_file; "-w"; workspace] ;;
  ret output_file.

(** The loop over [tar.getmembers()]. *)
Fixpoint extract_members (members : list TarInfo) (file_names : list string)
    (extracted_data : dict) : result dict :=
  match members with
  | [] => Ok extracted_data
  | member :: rest =>
      if py_in (name member) file_names
      then match json_load (content member) with
           | Ok data =>
               extract_members rest file_names
                 (Dict.set (name member) data extracted_data)
           | Raise e => Raise e
           end
      else extract_members rest file_names extracted_data
  end.

Definition extract_workflow_data (tar_file : string)
    (file_names : list string) : M dict :=
  fun w =>
    match tarfile_open (files w) tar_file with
    | Raise e => (Raise e, w)
    | Ok members => (extract_members members file_names [], w)
    end.

Definition main (args : Namespace) : M unit :=
  logging_basicConfig (arg_log_level args) ;;
  SeqeraPlatform ;;
  logging_info "Getting workflow run data..." ;;
  tar_file <- get_runs_dump (workflow_id args) (workspace args) ;;
  logging_info "Extracting workflow metadata..." ;;
  extracted_data <-
    extract_workflow_data tar_file ["workflow-load.json"; "workflow.json"] ;;
  let workflow_load := Dict.get extracted_data "workflow-load.json" in
  let workflow := Dict.get extracted_data "workflow.json" in
  if is_None workflow_load || is_None workflow
  then raise (ValueError missing_files_message)
  else
    logging_info "Parsing workflow metadata..." ;;
    from_load <- lift (parse_json workflow_load workflow_load_keys) ;;
    from_workflow <- lift (parse_json workflow workflow_keys) ;;
    let json_data := Dict.merge from_load from_workflow in
    logging_info "Writing workflow metadata to JSON file..." ;;
    write_file (output args) (json_dumps (JObject json_data)) ;;
    logging_info ("Workflow metadata written to " ++ output args ++ ".")%string.

(** The statements of [main] up to and including the download. *)
Definition fetch (args : Namespace) : M string :=
  logging_basicConfig (arg_log_level args) ;;
  SeqeraPlatform ;;
  logging_info "Getting workflow run data..." ;;
  get_runs_dump (workflow_id args) (workspace args).

End Script.

(** ** What the claims speak of *)

(** The value a dotted path addresses in a tree: descend through mappings
    segment by segment; there is none when a segment is not a key of the
    current mapping or the current value is not a mapping. *)
Fixpoint lookup_path (tree : json) (segments : list string) : option json :=
  match segments with
  | [] => Some tree
  | segment :: rest =>
      match tree with
      | JObject fields =>
          match Dict.lookup segment fields with
          | Some v => lookup_path v rest
          | None => None
          end
      | _ => None
      end
  end.

(** The addressed value, null when there is none. *)
Definition path_value (tree : json) (key : string) : json :=
  match lookup_path tree (split "." key) with
  | Some v => v
  | None => JNull
  end.

(** The keys of a list in the order of their first occurrence. *)
Fixpoint first_occurrences (seen keys_list : list string) : list string :=
  match keys_list with
  | [] => []
  | k :: rest =>
      if py_in k seen then first_occurrences seen rest
      else k :: first_occurrences (k :: seen) rest
  end.

Definition completes (tree : json) (key : string) : bool :=
  match resolve tree key with
  | Exhausted _ => true
  | _ => false
  end.

(** One pass of the outer loop of [parse_json] when the walk does not raise. *)
Definition record_key (tree : json) (acc : dict) (key : string) : dict :=
  match resolve tree key with
  | Exhausted value => Dict.set key value acc
  | _ => acc
  end.

(** ** Stand-ins for the libraries, for closed examples *)

(** A decoder that knows the listed documents and rejects every other text. *)
Definition table_load (docs : list (string * json)) (text : string)
    : result json :=
  match Dict.lookup text docs with
  | Some v => Ok v
  | None => Raise (JSONDecodeError "Expecting value")
  end.

(** An encoder that writes the keys of an object, comma separated. *)
Definition keys_dumps (v : json) : string :=
  match v with
  | JObject fields => String.concat "," (Dict.keys fields)
  | _ => EmptyString
  end.

(** A client whose [runs dump ... -o path ...] leaves a given archive at
    [path]. *)
Definition archive_client (members : list TarInfo) (argv : list string)
    : M unit :=
  fun w =>
    (Ok tt,
     mkWorld
       (fun p =>
          if String.eqb p (nth 4 argv EmptyString) then Some (GzTar members)
          else files w p)
       (log_level w) (log w) (unwritable w)).

Definition empty_world : world :=
  mkWorld (fun _ => None) "WARNING" [] (fun _ => None).

(** The text [{"cost": 2}] and its decoding. *)
Definition quote : string := String (ascii_of_nat 34) EmptyString.

Definition cost_text : string :=
  ("{" ++ quote ++ "cost" ++ quote ++ ": 2}")%string.

Definition id_text : string :=
  ("{" ++ quote ++ "id" ++ quote ++ ": 7}")%string.

Definition sample_documents : list (string * json) :=
  [ (cost_text, JObject [("cost", JInt 2)]);
    (id_text, JObject [("id", JInt 7)]);
    ("null", JNull) ].

(** A tree and key lists for closed examples:
    [{"a": {"b": 5}, "c": null, "n": 1}]. *)
Definition sample_tree : json :=
  JObject [("a", JObject [("b", JInt 5)]); ("c", JNull); ("n", JInt 1)].

Definition sample_keys : list string := ["a.b"; "c"; "x"; "n"; "a.b"; "a.z"].

Definition other_tree : json := JObject [("n", JInt 2); ("m", JBool true)].

Definition other_keys : list string := ["n"; "m"; "q"].

(** Archives and a command line for closed examples. *)
Definition full_archive : list TarInfo :=
  [ mkTarInfo "workflow-load.json" "null";
    mkTarInfo "README" "not json";
    mkTarInfo "workflow-load.json" cost_text;
    mkTarInfo "workflow.json" id_text ].

Definition partial_archive : list TarInfo :=
  [ mkTarInfo "workflow.json" id_text; mkTarInfo "README" "not json" ].

Definition broken_archive : list TarInfo :=
  [ mkTarInfo "workflow.json" "{" ; mkTarInfo "workflow-load.json" cost_text ].

Definition sample_args : Namespace := mkNamespace "INFO" "out.json" "ws" "42".

Definition requested : list string := ["workflow-load.json"; "workflow.json"].

Definition archive_world (members : list TarInfo) : world :=
  mkWorld (fun p => if String.eqb p "42.tar.gz" then Some (GzTar members)
                    else None)
          "INFO" [] (fun _ => None).

(** ** Further notions for the properties of the code *)

(** Whether a string holds the separator character. *)
Fixpoint has_sep (sep : ascii) (s : string) : bool :=
  match s with
  | EmptyString => false
  | String c rest => Ascii.eqb c sep || has_sep sep rest
  end.

(** [isinstance(v, dict)] *)
Definition is_mapping (v : json) : bool :=
  match v with
  | JObject _ => true
  | _ => false
  end.

(** What [parse_json] stores for a key that addresses [found]. *)
Definition stored (found : option json) : option json :=
  match found with
  | Some v => if is_None v then None else Some v
  | None => None
  end.

(** The world in which [main] calls the selector, [w3] being the world the
    download left. *)
Definition extracting (w3 : world) : world :=
  snd (logging_info "Extracting workflow metadata..." w3).

(** The messages [main] logs after the download when it runs to its end. *)
Definition closing_messages (args : Namespace) : list string :=
  [ "Extracting workflow metadata...";
    "Parsing workflow metadata...";
    "Writing workflow metadata to JSON file...";
    ("Workflow metadata written to " ++ output args ++ ".")%string ].

(** More data for closed examples. *)
Definition dotted_tree : json :=
  JObject [("params.input", JString "literal");
           ("params", JObject [("input", JString "nested")])].

Definition scalar_params_tree : json :=
  JObject [("id", JInt 7); ("params", JString "--input x")].

Definition list_text : string := "[]".

Definition more_documents : list (string * json) :=
  [ (cost_text, JObject [("cost", JInt 2)]);
    (id_text, JObject [("id", JInt 7)]);
    ("null", JNull);
    (list_text, JArray []) ].

Definition null_archive : list TarInfo :=
  [ mkTarInfo "workflow-load.json" cost_text;
    mkTarInfo "workflow.json" "null" ].

Definition list_archive : list TarInfo :=
  [ mkTarInfo "workflow-load.json" list_text;
    mkTarInfo "workflow.json" id_text ].

(** A command line whose output path lies below a directory that does not
    exist, and a world that says so. *)
Definition nodir_args : Namespace :=
  mkNamespace "INFO" "nodir/out.json" "ws" "42".

Definition nodir_world : world :=
  mkWorld (fun _ => None) "WARNING" []
    (fun p => if String.eqb p "nodir/out.json" then Some FileNotFoundError
              else None).

(** A client that fails. *)
Definition failing_client (argv : list string) : M unit :=
  raise (ClientError "401 Unauthorized").

Section Tail.

Local Open Scope py_scope.

Variable json_dumps : json -> string.

(** The statements of [main] after the presence check. *)
Definition finish (args : Namespace) (workflow_load workflow : json)
    : M unit :=
  logging_info "Parsing workflow metadata..." ;;
  from_load <- lift (parse_json workflow_load workflow_load_keys) ;;
  from_workflow <- lift (parse_json workflow workflow_keys) ;;
  let json_data := Dict.merge from_load from_workflow in
  logging_info "Writing workflow metadata to JSON file..." ;;
  write_file (output args) (json_dumps (JObject json_data)) ;;
  logging_info ("Workflow metadata written to " ++ output args ++ ".")%string.

(** The world [finish] ends in when both extractions return and the output
    path can be opened for writing. *)
Definition written (args : Namespace) (json_data : dict) (w4 : world)
    : world :=
  snd (logging_info
         ("Workflow metadata written to " ++ output args ++ ".")%string
         (snd (write_file (output args) (json_dumps (JObject json_data))
                 (snd (logging_info "Writing workflow metadata to JSON file..."
                         (snd (logging_info "Parsing workflow metadata..."
                                 w4))))))).

End Tail.

(** * Properties *)

(** ** Dict lemmas *)

Module DictFacts.
Import Dict.

Lemma lookup_None (k : string) (d : dict) :
  lookup k d = None <-> ~ In k (keys d).
Proof.
  induction d as [|[k' v'] d IH]; simpl.
  - tauto.
  - destruct (String.eqb_spec k' k) as [->|Hne].
    + split; [discriminate | intros H; exfalso; apply H; now left].
    + rewrite IH. intuition.
Qed.

Lemma lookup_Some_In (k : string) (v : json) (d : dict) :
  lookup k d = Some v -> In k (keys d).
Proof.
  intros H. destruct (in_dec string_dec k (keys d)) as [Hin|Hout]; auto.
  apply lookup_None in Hout. congruence.
Qed.

Lemma In_lookup (k : string) (d : dict) :
  In k (keys d) -> exists v, lookup k d = Some v.
Proof.
  intros Hin. destruct (lookup k d) as [v|] eqn:E; eauto.
  apply lookup_None in E. contradiction.
Qed.

Lemma lookup_set_same (k : string) (v : json) (d : dict) :
  lookup k (set k v d) = Some v.
Proof.
  induction d as [|[k' v'] d IH]; simpl.
  - now rewrite String.eqb_refl.
  - destruct (String.eqb k' k) eqn:E; simpl; now rewrite E.
Qed.

Lemma lookup_set_other (k k' : string) (v : json) (d : dict) :
  k <> k' -> lookup k' (set k v d) = lookup k' d.
Proof.
  intros Hne. induction d as [|[k0 v0] d IH]; simpl.
  - destruct (String.eqb_spec k k'); congruence.
  - destruct (String.eqb_spec k0 k) as [->|Hk]; simpl.
    + destruct (String.eqb_spec k k'); congruence.
    + now rewrite IH.
Qed.

Lemma set_present (k : string) (v : json) (d : dict) :
  In k (keys d) -> keys (set k v d) = keys d.
Proof.
  induction d as [|[k0 v0] d IH]; simpl; [tauto|].
  intros [->|Hin].
  - now rewrite String.eqb_refl.
  - destruct (String.eqb k0 k); simpl; [reflexivity | now rewrite IH].
Qed.

Lemma set_fresh (k : string) (v : json) (d : dict) :
  ~ In k (keys d) -> set k v d = d ++ [(k, v)].
Proof.
  induction d as [|[k0 v0] d IH]; simpl; [reflexivity|].
  intros Hout. destruct (String.eqb_spec k0 k) as [->|Hk].
  - exfalso. apply Hout. now left.
  - rewrite IH; [reflexivity | tauto].
Qed.

Lemma In_keys_set (n k : string) (v : json) (d : dict) :
  In n (keys (set k v d)) <-> n = k \/ In n (keys d).
Proof.
  destruct (in_dec string_dec k (keys d)) as [Hin|Hout].
  - rewrite set_present by assumption. split; [tauto|].
    intros [->|H]; assumption.
  - rewrite set_fresh by assumption. unfold keys.
    rewrite map_app, in_app_iff. simpl. intuition.
Qed.

Lemma NoDup_set (k : string) (v : json) (d : dict) :
  NoDup (keys d) -> NoDup (keys (set k v d)).
Proof.
  intros Hnd. destruct (in_dec string_dec k (keys d)) as [Hin|Hout].
  - now rewrite set_present.
  - rewrite set_fresh by assumption. unfold keys. rewrite map_app. simpl.
    apply NoDup_app; [assumption | repeat constructor; simpl; tauto |].
    intros a Ha [<-|[]]. contradiction.
Qed.

(** Updating with a duplicate-free dict whose keys are all new appends it. *)
Lemma update_fresh (other d : dict) :
  NoDup (keys (d ++ other)) -> update d other = d ++ other.
Proof.
  revert d. induction other as [|[k v] other IH]; intros d Hnd; simpl.
  - now rewrite app_nil_r.
  - unfold update in *. simpl.
    assert (Hout : ~ In k (keys d)).
    { unfold keys in *. rewrite map_app in Hnd. simpl in Hnd.
      apply NoDup_remove_2 in Hnd. rewrite in_app_iff in Hnd. tauto. }
    rewrite set_fresh by assumption.
    rewrite IH; rewrite <- app_assoc; simpl; [reflexivity | assumption].
Qed.

Lemma lookup_update (k : string) (other d : dict) :
  NoDup (keys other) ->
  lookup k (update d other) =
    match lookup k other with
    | Some v => Some v
    | None => lookup k d
    end.
Proof.
  revert d. induction other as [|[k0 v0] other IH]; intros d Hnd; simpl.
  - reflexivity.
  - simpl in Hnd. inversion Hnd as [|? ? Hout Hnd']; subst.
    unfold update in *. simpl. rewrite IH by assumption.
    destruct (String.eqb_spec k0 k) as [->|Hne].
    + apply lookup_None in Hout. rewrite Hout. apply lookup_set_same.
    + now rewrite lookup_set_other.
Qed.

Lemma lookup_app (k : string) (a b : dict) :
  lookup k (a ++ b) =
    match lookup k a with
    | Some v => Some v
    | None => lookup k b
    end.
Proof.
  induction a as [|[k0 v0] a IH]; simpl; [reflexivity|].
  destruct (String.eqb k0 k); [reflexivity | apply IH].
Qed.

End DictFacts.

(** ** Membership and first occurrences *)

Lemma py_in_spec (x : string) (names : list string) :
  py_in x names = true <-> In x names.
Proof.
  unfold py_in. rewrite existsb_exists. split.
  - intros [y [Hy E]]. apply String.eqb_eq in E. now subst.
  - intros H. exists x. split; [assumption | apply String.eqb_refl].
Qed.

Lemma py_in_false (x : string) (names : list string) :
  py_in x names = false <-> ~ In x names.
Proof.
  rewrite <- py_in_spec. destruct (py_in x names); intuition congruence.
Qed.

Lemma first_occurrences_ext (l seen seen' : list string) :
  (forall x, In x seen <-> In x seen') ->
  first_occurrences seen l = first_occurrences seen' l.
Proof.
  revert seen seen'. induction l as [|k l IH]; intros seen seen' Hext; simpl.
  - reflexivity.
  - destruct (py_in k seen) eqn:E, (py_in k seen') eqn:E'.
    + now apply IH.
    + apply py_in_spec in E. apply py_in_false in E'. apply Hext in E. tauto.
    + apply py_in_spec in E'. apply py_in_false in E. apply Hext in E'. tauto.
    + f_equal. apply IH. intros x. simpl. rewrite Hext. tauto.
Qed.

Lemma first_occurrences_In (l seen : list string) (x : string) :
  In x (first_occurrences seen l) <-> In x l /\ ~ In x seen.
Proof.
  revert seen. induction l as [|k l IH]; intros seen; simpl.
  - tauto.
  - destruct (py_in k seen) eqn:E.
    + apply py_in_spec in E. rewrite IH. split.
      * tauto.
      * intros [[->|H] Hout]; tauto.
    + apply py_in_false in E. simpl. rewrite IH. simpl.
      destruct (string_dec k x) as [->|Hne]; intuition.
Qed.

Lemma first_occurrences_NoDup (l seen : list string) :
  NoDup (first_occurrences seen l).
Proof.
  revert seen. induction l as [|k l IH]; intros seen; simpl.
  - constructor.
  - destruct (py_in k seen); [apply IH|].
    constructor; [|apply IH].
    rewrite first_occurrences_In. simpl. tauto.
Qed.

(** ** The walk along one key *)

Lemma split_nonempty (sep : ascii) (s : string) : split sep s <> [].
Proof.
  destruct s as [|c s]; simpl; [discriminate|].
  destruct (Ascii.eqb c sep); [discriminate|].
  destruct (split sep s); discriminate.
Qed.

(** Whatever the walk raises is an [AttributeError]. *)
Lemma walk_Raised (parts : list string) (value : json) (e : exn) :
  walk value parts = Raised e -> e = AttributeError.
Proof.
  revert value. induction parts as [|part parts IH]; intros value; simpl.
  - discriminate.
  - destruct value; simpl; try (intros H; injection H as <-; reflexivity).
    destruct (is_None (Dict.get fields part)); [discriminate | apply IH].
Qed.

Lemma walk_Exhausted_not_None (parts : list string) (value v : json) :
  parts <> [] -> walk value parts = Exhausted v -> is_None v = false.
Proof.
  revert value. induction parts as [|part parts IH]; intros value Hne; simpl.
  - congruence.
  - destruct (attr_get value part) as [value'|e]; [|discriminate].
    destruct (is_None value') eqn:E; [discriminate|].
    destruct parts as [|part' parts'].
    + simpl. intros H. injection H as <-. exact E.
    + apply IH. discriminate.
Qed.

Lemma walk_Exhausted_path (parts : list string) (value v : json) :
  walk value parts = Exhausted v -> lookup_path value parts = Some v.
Proof.
  revert value. induction parts as [|part parts IH]; intros value; simpl.
  - congruence.
  - destruct value; simpl; try discriminate.
    unfold Dict.get. destruct (Dict.lookup part fields) as [v'|]; simpl.
    + destruct (is_None v'); [discriminate | apply IH].
    + discriminate.
Qed.

Lemma walk_Broke_path (parts : list string) (value : json) :
  walk value parts = Broke ->
  lookup_path value parts = None \/ lookup_path value parts = Some JNull.
Proof.
  revert value. induction parts as [|part parts IH]; intros value; simpl.
  - discriminate.
  - destruct value; simpl; try discriminate.
    unfold Dict.get. destruct (Dict.lookup part fields) as [v'|]; simpl.
    + destruct v'; simpl; try apply IH.
      intros _. destruct parts; simpl; auto.
    + auto.
Qed.

Lemma resolve_Exhausted (tree : json) (key : string) (v : json) :
  resolve tree key = Exhausted v -> path_value tree key = v /\ v <> JNull.
Proof.
  unfold resolve, path_value. intros H. split.
  - now rewrite (walk_Exhausted_path _ _ _ H).
  - apply walk_Exhausted_not_None in H; [|apply split_nonempty].
    intros ->. discriminate.
Qed.

Lemma resolve_Broke (tree : json) (key : string) :
  resolve tree key = Broke -> path_value tree key = JNull.
Proof.
  unfold resolve, path_value. intros H.
  destruct (walk_Broke_path _ _ H) as [-> | ->]; reflexivity.
Qed.

Lemma completes_path_value (tree : json) (key : string) :
  (forall e, resolve tree key <> Raised e) ->
  completes tree key = negb (is_None (path_value tree key)).
Proof.
  intros Hok. unfold completes. destruct (resolve tree key) as [v| |e] eqn:E.
  - destruct (resolve_Exhausted _ _ _ E) as [-> Hv]. destruct v; simpl; congruence.
  - now rewrite (resolve_Broke _ _ E).
  - now elim (Hok e).
Qed.

(** ** The outer loop of [parse_json] *)

Lemma record_key_Exhausted (tree : json) (acc : dict) (k : string) (v : json) :
  resolve tree k = Exhausted v -> record_key tree acc k = Dict.set k v acc.
Proof. unfold record_key. now intros ->. Qed.

Lemma record_key_Broke (tree : json) (acc : dict) (k : string) :
  resolve tree k = Broke -> record_key tree acc k = acc.
Proof. unfold record_key. now intros ->. Qed.

Lemma parse_json_loop_fold (tree : json) (keys_list : list string) (acc : dict) :
  (forall k, In k keys_list -> forall e, resolve tree k <> Raised e) ->
  parse_json_loop tree keys_list acc
  = Ok (fold_left (record_key tree) keys_list acc).
Proof.
  revert acc. induction keys_list as [|k l IH]; intros acc Hok; simpl.
  - reflexivity.
  - destruct (resolve tree k) as [v| |e] eqn:E.
    + erewrite record_key_Exhausted by exact E.
      apply IH. intros; apply Hok; now right.
    + rewrite record_key_Broke by exact E.
      apply IH. intros; apply Hok; now right.
    + elim (Hok k (or_introl eq_refl) e). exact E.
Qed.

Lemma parse_json_loop_Ok (tree : json) (keys_list : list string) (acc d : dict) :
  parse_json_loop tree keys_list acc = Ok d ->
  d = fold_left (record_key tree) keys_list acc /\
  (forall k, In k keys_list -> forall e, resolve tree k <> Raised e).
Proof.
  revert acc d. induction keys_list as [|k l IH]; intros acc d; simpl.
  - intros H. injection H as <-. split; [reflexivity | tauto].
  - destruct (resolve tree k) as [v| |e] eqn:E.
    + erewrite record_key_Exhausted by exact E.
      intros H. destruct (IH _ _ H) as [-> Hok]. split; [reflexivity|].
      intros k' [<-|Hin] e; [congruence | now apply Hok].
    + rewrite record_key_Broke by exact E.
      intros H. destruct (IH _ _ H) as [-> Hok]. split; [reflexivity|].
      intros k' [<-|Hin] e; [congruence | now apply Hok].
    + pose proof (walk_Raised _ _ _ E) as ->. simpl. discriminate.
Qed.

Lemma keys_fold_record (tree : json) (keys_list : list string) (acc : dict) :
  Dict.keys (fold_left (record_key tree) keys_list acc)
  = Dict.keys acc
    ++ first_occurrences (Dict.keys acc) (filter (completes tree) keys_list).
Proof.
  revert acc. induction keys_list as [|k l IH]; intros acc; simpl.
  - now rewrite app_nil_r.
  - rewrite IH. unfold record_key, completes.
    destruct (resolve tree k) as [v| |e] eqn:E; try reflexivity.
    simpl. destruct (py_in k (Dict.keys acc)) eqn:Hin.
    + apply py_in_spec in Hin. now rewrite DictFacts.set_present.
    + apply py_in_false in Hin. rewrite DictFacts.set_fresh by assumption.
      unfold Dict.keys. rewrite map_app, <- app_assoc. simpl. do 2 f_equal.
      apply first_occurrences_ext. intros x. rewrite in_app_iff. simpl. tauto.
Qed.

Lemma lookup_fold_record (tree : json) (keys_list : list string) (acc : dict)
    (k : string) :
  Dict.lookup k (fold_left (record_key tree) keys_list acc)
  = match resolve tree k with
    | Exhausted v => if py_in k keys_list then Some v else Dict.lookup k acc
    | _ => Dict.lookup k acc
    end.
Proof.
  revert acc. induction keys_list as [|k0 l IH]; intros acc; simpl.
  - destruct (resolve tree k); reflexivity.
  - rewrite IH. unfold record_key.
    destruct (String.eqb_spec k k0) as [<-|Hne]; simpl.
    + destruct (resolve tree k) as [v| |e]; try reflexivity.
      destruct (py_in k l); [reflexivity | apply DictFacts.lookup_set_same].
    + destruct (resolve tree k0) as [v0| |e0]; try reflexivity.
      rewrite DictFacts.lookup_set_other by congruence. reflexivity.
Qed.

Lemma parse_json_Ok (tree : json) (keys_list : list string) (d : dict) :
  parse_json tree keys_list = Ok d ->
  d = fold_left (record_key tree) keys_list [] /\
  (forall k, In k keys_list -> resolve tree k <> Raised AttributeError).
Proof.
  intros H. apply parse_json_loop_Ok in H. destruct H as [-> Hok].
  split; [reflexivity | intros k Hin; now apply Hok].
Qed.

Lemma no_AttributeError_no_raise (tree : json) (keys_list : list string) :
  (forall k, In k keys_list -> resolve tree k <> Raised AttributeError) ->
  forall k, In k keys_list -> forall e, resolve tree k <> Raised e.
Proof.
  intros Hok k Hin e E. pose proof (walk_Raised _ _ _ E) as ->.
  now apply (Hok k Hin).
Qed.

Lemma filter_completes (tree : json) (keys_list : list string) :
  (forall k, In k keys_list -> resolve tree k <> Raised AttributeError) ->
  filter (completes tree) keys_list
  = filter (fun k => negb (is_None (path_value tree k))) keys_list.
Proof.
  intros Hok. apply filter_ext_in. intros k Hin.
  apply completes_path_value. now apply (no_AttributeError_no_raise _ _ Hok).
Qed.

Lemma lookup_parse_json (tree : json) (keys_list : list string) (k : string) :
  (forall e, resolve tree k <> Raised e) ->
  Dict.lookup k (fold_left (record_key tree) keys_list [])
  = if py_in k keys_list && negb (is_None (path_value tree k))
    then Some (path_value tree k) else None.
Proof.
  intros Hok. rewrite lookup_fold_record. simpl.
  destruct (resolve tree k) as [v| |e] eqn:E.
  - destruct (resolve_Exhausted _ _ _ E) as [-> Hv].
    destruct (py_in k keys_list); [|reflexivity].
    destruct v; simpl; congruence.
  - rewrite (resolve_Broke _ _ E). simpl. now rewrite andb_false_r.
  - now elim (Hok e).
Qed.

Lemma parse_json_NoDup (tree : json) (keys_list : list string) (d : dict) :
  parse_json tree keys_list = Ok d -> NoDup (Dict.keys d).
Proof.
  intros H. apply parse_json_Ok in H. destruct H as [-> _].
  rewrite keys_fold_record. simpl. apply first_occurrences_NoDup.
Qed.

Lemma parse_json_keys_subset (tree : json) (keys_list : list string) (d : dict) :
  parse_json tree keys_list = Ok d ->
  forall k, In k (Dict.keys d) -> In k keys_list.
Proof.
  intros H k. apply parse_json_Ok in H. destruct H as [-> _].
  rewrite keys_fold_record. simpl. rewrite first_occurrences_In, filter_In.
  tauto.
Qed.

(** ** parse_json: the claims *)

(** C1, as amended.  When no walk raises, as is the case when the root is a
    mapping and no walk meets, before its last segment, a value that is
    neither a mapping nor null ([mapping_walks_do_not_raise]),
    [parse_json tree keys_list] returns a mapping whose keys are exactly the
    strings of [keys_list] whose walk resolves to a non-null value, in the
    order of their first occurrence in [keys_list], each bound to the value
    the walk resolves to.  A key whose walk meets an absent segment or a null
    value is not a key of the result. *)
Theorem parse_json_records_resolved_keys (tree : json) (keys_list : list string) :
  (forall k, In k keys_list -> resolve tree k <> Raised AttributeError) ->
  exists d,
    parse_json tree keys_list = Ok d /\
    Dict.keys d
    = first_occurrences []
        (filter (fun k => negb (is_None (path_value tree k))) keys_list) /\
    (forall k, In k (Dict.keys d) -> Dict.lookup k d = Some (path_value tree k)) /\
    (forall k, path_value tree k = JNull -> Dict.lookup k d = None).
Proof.
  intros Hok. exists (fold_left (record_key tree) keys_list []).
  split; [|split; [|split]].
  - apply parse_json_loop_fold. now apply no_AttributeError_no_raise.
  - rewrite keys_fold_record. simpl. now rewrite filter_completes.
  - intros k. rewrite keys_fold_record. simpl.
    rewrite first_occurrences_In, filter_In. intros [[Hin Hc] _].
    assert (Hk : forall e, resolve tree k <> Raised e)
      by now apply (no_AttributeError_no_raise _ _ Hok).
    rewrite lookup_parse_json by assumption.
    rewrite completes_path_value in Hc by assumption.
    apply py_in_spec in Hin. now rewrite Hin, Hc.
  - intros k Hnull. rewrite lookup_fold_record. simpl.
    destruct (resolve tree k) as [v| |e] eqn:E; try reflexivity.
    destruct (resolve_Exhausted _ _ _ E) as [Hv Hnn]. congruence.
Qed.

Lemma parse_json_records_resolved_keys_witness :
  (forall k, In k sample_keys -> resolve sample_tree k <> Raised AttributeError) /\
  exists d,
    parse_json sample_tree sample_keys = Ok d /\
    Dict.keys d
    = first_occurrences []
        (filter (fun k => negb (is_None (path_value sample_tree k))) sample_keys) /\
    (forall k, In k (Dict.keys d) ->
               Dict.lookup k d = Some (path_value sample_tree k)) /\
    (forall k, path_value sample_tree k = JNull -> Dict.lookup k d = None).
Proof.
  assert (H : forall k, In k sample_keys ->
                        resolve sample_tree k <> Raised AttributeError).
  { intros k Hin. simpl in Hin.
    repeat (destruct Hin as [<-|Hin]; [vm_compute; discriminate|]).
    destruct Hin. }
  split; [exact H | exact (parse_json_records_resolved_keys sample_tree sample_keys H)].
Defined.

(** C1 as stated fails: a key whose walk ends on null is not recorded. *)
Lemma parse_json_drops_null_valued_key :
  parse_json (JObject [("a", JNull)]) ["a"] = Ok [] /\
  parse_json (JObject [("a", JNull)]) ["a"] <> Ok [("a", JNull)] /\
  Dict.keys (@nil (string * json)) <> ["a"].
Proof. repeat split; vm_compute; discriminate. Qed.

(** C2: at [{"a": 5}] and ["a.b"], [parse_json] raises [AttributeError]:
    [5] has no [get], and the handler names only [KeyError] and [TypeError]. *)
Theorem parse_json_non_mapping_raises :
  parse_json (JObject [("a", JInt 5)]) ["a.b"] = Raise AttributeError.
Proof. reflexivity. Qed.

(** The handler of [parse_json] never runs: no walk raises what it catches. *)
Lemma parse_json_handler_unreachable (tree : json) (key : string) (e : exn) :
  resolve tree key = Raised e -> caught e = false.
Proof. intros E. now rewrite (walk_Raised _ _ _ E). Qed.

(** A walk raises exactly when [parse_json] does. *)
Lemma parse_json_raises_iff (tree : json) (keys_list : list string) :
  parse_json tree keys_list = Raise AttributeError <->
  exists k, In k keys_list /\ resolve tree k = Raised AttributeError.
Proof.
  unfold parse_json. generalize (@nil (string * json)) as acc.
  induction keys_list as [|k l IH]; intros acc; simpl.
  - split; [discriminate | intros [k [[] _]]].
  - destruct (resolve tree k) as [v| |e] eqn:E.
    + rewrite IH. split; intros [k' [Hin Hk']]; exists k'; [tauto|].
      destruct Hin as [<-|Hin]; [congruence | tauto].
    + rewrite IH. split; intros [k' [Hin Hk']]; exists k'; [tauto|].
      destruct Hin as [<-|Hin]; [congruence | tauto].
    + pose proof (walk_Raised _ _ _ E) as ->. simpl.
      split; [intros _; exists k; tauto | reflexivity].
Qed.

(** C5 as stated fails: a repeated key whose walk does not resolve is not a
    key of the result at all. *)
Lemma parse_json_repeated_absent_key :
  count_occ string_dec ["x"; "x"] "x" = 2 /\
  parse_json (JObject []) ["x"; "x"] = Ok [] /\
  count_occ string_dec (Dict.keys (@nil (string * json))) "x" = 0.
Proof. repeat split. Qed.

(** C5, as amended.  When [k] occurs more than once in [keys_list] and no
    walk raises, as is the case when the root is a mapping and no walk meets,
    before its last segment, a value that is neither a mapping nor null
    ([mapping_walks_do_not_raise]), the result holds [k] at most once: once,
    bound to the value its walk resolves to, when that value is not null, and
    not at all otherwise.  Every occurrence of [k] leaves [k] with the
    binding the final result has, and the keys of the result follow the order
    of their first occurrence in [keys_list]. *)
Theorem parse_json_repeated_key (tree : json) (keys_list : list string)
    (k : string) :
  2 <= count_occ string_dec keys_list k ->
  (forall k', In k' keys_list -> resolve tree k' <> Raised AttributeError) ->
  exists d,
    parse_json tree keys_list = Ok d /\
    count_occ string_dec (Dict.keys d) k
    = (if is_None (path_value tree k) then 0 else 1) /\
    Dict.lookup k d
    = (if is_None (path_value tree k) then None
       else Some (path_value tree k)) /\
    (forall before after, keys_list = before ++ k :: after ->
       exists d', parse_json tree (before ++ [k]) = Ok d' /\
                  Dict.lookup k d' = Dict.lookup k d) /\
    Dict.keys d
    = first_occurrences []
        (filter (fun k => negb (is_None (path_value tree k))) keys_list).
Proof.
  intros Hcount Hok.
  assert (Hin : In k keys_list) by (apply (count_occ_In string_dec); lia).
  assert (Hk : forall e, resolve tree k <> Raised e)
    by now apply (no_AttributeError_no_raise _ _ Hok).
  pose proof (proj2 (py_in_spec k keys_list) Hin) as Hpy.
  assert (Hlookup :
    Dict.lookup k (fold_left (record_key tree) keys_list [])
    = if is_None (path_value tree k) then None else Some (path_value tree k)).
  { rewrite lookup_parse_json by assumption. rewrite Hpy. simpl.
    now destruct (is_None (path_value tree k)). }
  exists (fold_left (record_key tree) keys_list []).
  split; [|split; [|split; [|split]]].
  - apply parse_json_loop_fold. now apply no_AttributeError_no_raise.
  - assert (Hnd : NoDup (Dict.keys (fold_left (record_key tree) keys_list []))).
    { rewrite keys_fold_record. simpl. apply first_occurrences_NoDup. }
    destruct (is_None (path_value tree k)) eqn:Hnone.
    + apply count_occ_not_In. apply DictFacts.lookup_None. exact Hlookup.
    + apply DictFacts.lookup_Some_In in Hlookup.
      apply (count_occ_In string_dec) in Hlookup.
      rewrite (NoDup_count_occ string_dec) in Hnd. specialize (Hnd k). lia.
  - exact Hlookup.
  - intros before after Hsplit.
    exists (fold_left (record_key tree) (before ++ [k]) []). split.
    + apply parse_json_loop_fold. intros k' Hin' e.
      apply (no_AttributeError_no_raise _ _ Hok). subst keys_list.
      rewrite in_app_iff in *. simpl in *. tauto.
    + rewrite Hlookup. rewrite lookup_parse_json by assumption.
      assert (Hpy' : py_in k (before ++ [k]) = true).
      { apply py_in_spec. rewrite in_app_iff. simpl. tauto. }
      rewrite Hpy'. simpl. now destruct (is_None (path_value tree k)).
  - rewrite keys_fold_record. simpl. now rewrite filter_completes.
Qed.

Lemma parse_json_repeated_key_witness :
  2 <= count_occ string_dec sample_keys "a.b" /\
  (forall k', In k' sample_keys ->
              resolve sample_tree k' <> Raised AttributeError) /\
  exists d,
    parse_json sample_tree sample_keys = Ok d /\
    count_occ string_dec (Dict.keys d) "a.b"
    = (if is_None (path_value sample_tree "a.b") then 0 else 1) /\
    Dict.lookup "a.b" d
    = (if is_None (path_value sample_tree "a.b") then None
       else Some (path_value sample_tree "a.b")) /\
    (forall before after, sample_keys = before ++ "a.b" :: after ->
       exists d', parse_json sample_tree (before ++ ["a.b"]) = Ok d' /\
                  Dict.lookup "a.b" d' = Dict.lookup "a.b" d) /\
    Dict.keys d
    = first_occurrences []
        (filter (fun k => negb (is_None (path_value sample_tree k))) sample_keys).
Proof.
  assert (Hc : 2 <= count_occ string_dec sample_keys "a.b")
    by (vm_compute; lia).
  assert (H : forall k, In k sample_keys ->
                        resolve sample_tree k <> Raised AttributeError).
  { intros k Hin. simpl in Hin.
    repeat (destruct Hin as [<-|Hin]; [vm_compute; discriminate|]).
    destruct Hin. }
  split; [exact Hc | split; [exact H |]].
  exact (parse_json_repeated_key sample_tree sample_keys "a.b" Hc H).
Defined.

(** C9.  Every key of the mapping [parse_json] returns is an element of the
    key list it was given, whatever the tree. *)
Theorem parse_json_keys_requested (tree : json) (keys_list : list string)
    (d : dict) :
  parse_json tree keys_list = Ok d ->
  forall k, In k (Dict.keys d) -> In k keys_list.
Proof. apply parse_json_keys_subset. Qed.

Lemma parse_json_keys_requested_witness :
  parse_json sample_tree sample_keys
  = Ok [("a.b", JInt 5); ("n", JInt 1)] /\
  forall k, In k (Dict.keys [("a.b", JInt 5); ("n", JInt 1)]) ->
            In k sample_keys.
Proof.
  split; [reflexivity|].
  exact (parse_json_keys_requested sample_tree sample_keys
           [("a.b", JInt 5); ("n", JInt 1)] eq_refl).
Defined.

(** ** Merging two extraction results *)

Lemma update_nil_NoDup (d : dict) :
  NoDup (Dict.keys d) -> Dict.update [] d = d.
Proof. intros Hnd. now rewrite DictFacts.update_fresh. Qed.

Lemma lookup_parse_json_result (tree : json) (keys_list : list string)
    (d : dict) (k : string) :
  parse_json tree keys_list = Ok d -> In k keys_list ->
  Dict.lookup k d
  = if is_None (path_value tree k) then None else Some (path_value tree k).
Proof.
  intros H Hin. apply parse_json_Ok in H. destruct H as [-> Hok].
  rewrite lookup_parse_json
    by (intros e; now apply (no_AttributeError_no_raise _ _ Hok)).
  apply py_in_spec in Hin. rewrite Hin. simpl.
  now destruct (is_None (path_value tree k)).
Qed.

(** C4 as stated fails: "dateCreated" is in both fixed key lists, and when
    the second tree holds null for it the merged mapping keeps the first
    tree's value, the second result having no such key. *)
Lemma merge_shared_key_keeps_first_value :
  In "dateCreated" workflow_load_keys /\
  In "dateCreated" workflow_keys /\
  parse_json (JObject [("dateCreated", JString "load")]) workflow_load_keys
  = Ok [("dateCreated", JString "load")] /\
  parse_json (JObject [("dateCreated", JNull)]) workflow_keys = Ok [] /\
  Dict.lookup "dateCreated" (Dict.merge [("dateCreated", JString "load")] [])
  = Some (JString "load").
Proof.
  split; [simpl; tauto | split; [simpl; tauto |]].
  repeat split.
Qed.

(** C4, as amended.  For the results [d1] and [d2] of two extractions, a key
    of the merged mapping [{**d1, **d2}] has the value [d2] gives it when
    [d2] has the key, and the value [d1] gives it otherwise; a key of both
    mappings has the second mapping's value; when the two key lists share no
    key the merged mapping is [d1] followed by [d2]; and a key the two key
    lists share has the second tree's value when that is not null, else the
    first tree's value when that is not null, and else is no key of the
    merged mapping. *)
Theorem merge_parse_json (tree1 tree2 : json) (keys1 keys2 : list string)
    (d1 d2 : dict) :
  parse_json tree1 keys1 = Ok d1 ->
  parse_json tree2 keys2 = Ok d2 ->
  (forall k, Dict.lookup k (Dict.merge d1 d2)
             = match Dict.lookup k d2 with
               | Some v => Some v
               | None => Dict.lookup k d1
               end) /\
  (forall k v1 v2, Dict.lookup k d1 = Some v1 -> Dict.lookup k d2 = Some v2 ->
                   Dict.lookup k (Dict.merge d1 d2) = Some v2) /\
  ((forall k, In k keys1 -> ~ In k keys2) -> Dict.merge d1 d2 = d1 ++ d2) /\
  (forall k, In k keys1 -> In k keys2 ->
     Dict.lookup k (Dict.merge d1 d2)
     = if is_None (path_value tree2 k)
       then (if is_None (path_value tree1 k) then None
             else Some (path_value tree1 k))
       else Some (path_value tree2 k)).
Proof.
  intros H1 H2.
  pose proof (parse_json_NoDup _ _ _ H1) as Hnd1.
  pose proof (parse_json_NoDup _ _ _ H2) as Hnd2.
  assert (Hlookup : forall k, Dict.lookup k (Dict.merge d1 d2)
             = match Dict.lookup k d2 with
               | Some v => Some v
               | None => Dict.lookup k d1
               end).
  { intros k. unfold Dict.merge. rewrite update_nil_NoDup by assumption.
    now apply DictFacts.lookup_update. }
  split; [exact Hlookup | split; [|split]].
  - intros k v1 v2 _ Hk2. now rewrite Hlookup, Hk2.
  - intros Hdisjoint. unfold Dict.merge.
    rewrite update_nil_NoDup by assumption.
    apply DictFacts.update_fresh. unfold Dict.keys. rewrite map_app.
    apply NoDup_app; try assumption.
    intros k Hk1 Hk2.
    apply (Hdisjoint k).
    + now apply (parse_json_keys_subset _ _ _ H1).
    + now apply (parse_json_keys_subset _ _ _ H2).
  - intros k Hin1 Hin2. rewrite Hlookup.
    rewrite (lookup_parse_json_result _ _ _ _ H2 Hin2).
    rewrite (lookup_parse_json_result _ _ _ _ H1 Hin1).
    now destruct (is_None (path_value tree2 k)).
Qed.

Lemma merge_parse_json_witness :
  parse_json sample_tree sample_keys = Ok [("a.b", JInt 5); ("n", JInt 1)] /\
  parse_json other_tree other_keys = Ok [("n", JInt 2); ("m", JBool true)] /\
  Dict.merge [("a.b", JInt 5); ("n", JInt 1)] [("n", JInt 2); ("m", JBool true)]
  = [("a.b", JInt 5); ("n", JInt 2); ("m", JBool true)] /\
  Dict.lookup "n"
    (Dict.merge [("a.b", JInt 5); ("n", JInt 1)]
       [("n", JInt 2); ("m", JBool true)])
  = Some (JInt 2).
Proof.
  split; [reflexivity | split; [reflexivity | split; [reflexivity |]]].
  exact (proj1 (proj2 (merge_parse_json sample_tree other_tree
                         sample_keys other_keys
                         [("a.b", JInt 5); ("n", JInt 1)]
                         [("n", JInt 2); ("m", JBool true)]
                         eq_refl eq_refl))
           "n" (JInt 1) (JInt 2) eq_refl eq_refl).
Defined.

(** ** The archive member selector *)

Section Selector.

Variable json_load : string -> result json.

Lemma extract_members_app (l1 l2 : list TarInfo) (names : list string)
    (acc : dict) :
  extract_members json_load (l1 ++ l2) names acc
  = match extract_members json_load l1 names acc with
    | Ok d => extract_members json_load l2 names d
    | Raise e => Raise e
    end.
Proof.
  revert acc. induction l1 as [|m l1 IH]; intros acc; simpl.
  - reflexivity.
  - destruct (py_in (name m) names); [|apply IH].
    destruct (json_load (content m)); [apply IH | reflexivity].
Qed.

Lemma extract_members_total (members : list TarInfo) (names : list string)
    (acc : dict) :
  (forall m, In m members -> In (name m) names ->
             exists v, json_load (content m) = Ok v) ->
  exists d, extract_members json_load members names acc = Ok d.
Proof.
  revert acc. induction members as [|m l IH]; intros acc Hall; simpl.
  - now exists acc.
  - destruct (py_in (name m) names) eqn:E.
    + apply py_in_spec in E.
      destruct (Hall m (or_introl eq_refl) E) as [v ->].
      apply IH. intros; apply Hall; auto. now right.
    + apply IH. intros; apply Hall; auto. now right.
Qed.

Lemma extract_members_keys (members : list TarInfo) (names : list string)
    (acc d : dict) :
  extract_members json_load members names acc = Ok d ->
  forall n, In n (Dict.keys d) <->
            In n (Dict.keys acc) \/
            (In n names /\ exists m, In m members /\ name m = n).
Proof.
  revert acc d. induction members as [|m l IH]; intros acc d; simpl.
  - intros H n. injection H as <-. split; [tauto|].
    intros [H|[_ [m [[] _]]]]. exact H.
  - destruct (py_in (name m) names) eqn:E.
    + apply py_in_spec in E.
      destruct (json_load (content m)) as [v|e]; [|discriminate].
      intros H n. rewrite (IH _ _ H n), DictFacts.In_keys_set. split.
      * intros [[->|Hacc]|[Hn [m' [Hin' Hname]]]]; eauto 7.
      * intros [Hacc|[Hn [m' [[<-|Hin'] Hname]]]]; eauto 7.
    + apply py_in_false in E. intros H n. rewrite (IH _ _ H n). split.
      * intros [Hacc|[Hn [m' [Hin' Hname]]]]; eauto 7.
      * intros [Hacc|[Hn [m' [[<-|Hin'] Hname]]]]; eauto 7.
        subst n. contradiction.
Qed.

Lemma extract_members_filter (members : list TarInfo) (names : list string)
    (acc : dict) :
  extract_members json_load members names acc
  = extract_members json_load
      (filter (fun m => py_in (name m) names) members) names acc.
Proof.
  revert acc. induction members as [|m l IH]; intros acc; simpl.
  - reflexivity.
  - destruct (py_in (name m) names) eqn:E; simpl; [|apply IH].
    rewrite E. destruct (json_load (content m)); [apply IH | reflexivity].
Qed.

Lemma extract_members_other (members : list TarInfo) (names : list string)
    (acc d : dict) (n : string) :
  extract_members json_load members names acc = Ok d ->
  (forall m, In m members -> name m <> n) ->
  Dict.lookup n d = Dict.lookup n acc.
Proof.
  revert acc d. induction members as [|m l IH]; intros acc d; simpl.
  - intros H _. now injection H as <-.
  - intros H Hother.
    assert (Hl : forall m', In m' l -> name m' <> n)
      by (intros; apply Hother; now right).
    destruct (py_in (name m) names); [|now apply IH].
    destruct (json_load (content m)) as [v|e]; [|discriminate].
    rewrite (IH _ _ H Hl). apply DictFacts.lookup_set_other.
    apply Hother. now left.
Qed.

Lemma extract_members_raises (members : list TarInfo) (names : list string)
    (acc : dict) (m : TarInfo) (e : exn) :
  In m members -> In (name m) names -> json_load (content m) = Raise e ->
  exists m' e',
    In m' members /\ In (name m') names /\
    json_load (content m') = Raise e' /\
    extract_members json_load members names acc = Raise e'.
Proof.
  intros Hin Hname Hbad. revert acc.
  induction members as [|m0 l IH]; intros acc; simpl; [destruct Hin|].
  destruct (py_in (name m0) names) eqn:E.
  - apply py_in_spec in E.
    destruct (json_load (content m0)) as [v|e0] eqn:E0.
    + destruct Hin as [->|Hin]; [congruence|].
      destruct (IH Hin (Dict.set (name m0) v acc)) as [m' [e' H]].
      exists m', e'. simpl. tauto.
    + exists m0, e0. simpl. tauto.
  - apply py_in_false in E.
    destruct Hin as [->|Hin]; [contradiction|].
    destruct (IH Hin acc) as [m' [e' H]].
    exists m', e'. simpl. tauto.
Qed.

(** C6.  For an archive all of whose requested members hold JSON,
    [extract_workflow_data] returns a mapping whose keys are exactly the
    requested names that some member bears: a requested name no member
    bears raises nothing and is no key of the result; and members whose
    names are not requested are ignored, the result being that of the
    archive without them. *)
Theorem extract_workflow_data_selects (w : world) (tar_file : string)
    (members : list TarInfo) (file_names : list string) :
  files w tar_file = Some (GzTar members) ->
  (forall m, In m members -> In (name m) file_names ->
             exists v, json_load (content m) = Ok v) ->
  exists d,
    extract_workflow_data json_load tar_file file_names w = (Ok d, w) /\
    (forall n, In n (Dict.keys d) <->
               In n file_names /\ exists m, In m members /\ name m = n) /\
    extract_members json_load
      (filter (fun m => py_in (name m) file_names) members) file_names []
    = Ok d.
Proof.
  intros Hfile Hall.
  destruct (extract_members_total members file_names [] Hall) as [d Hd].
  exists d. unfold extract_workflow_data, tarfile_open. rewrite Hfile, Hd.
  split; [reflexivity | split].
  - intros n. rewrite (extract_members_keys _ _ _ _ Hd n). simpl. tauto.
  - now rewrite <- extract_members_filter.
Qed.

(** C7.  When a member whose name is requested holds text that
    [json.load] rejects, [extract_workflow_data] raises the decoder's error
    for such a member: nothing in the selector catches it. *)
Theorem extract_workflow_data_propagates_parse_error (w : world)
    (tar_file : string) (members : list TarInfo) (file_names : list string)
    (m : TarInfo) (e : exn) :
  files w tar_file = Some (GzTar members) ->
  In m members -> In (name m) file_names ->
  json_load (content m) = Raise e ->
  exists m' e',
    In m' members /\ In (name m') file_names /\
    json_load (content m') = Raise e' /\
    extract_workflow_data json_load tar_file file_names w = (Raise e', w).
Proof.
  intros Hfile Hin Hname Hbad.
  destruct (extract_members_raises members file_names [] m e Hin Hname Hbad)
    as [m' [e' [H1 [H2 [H3 H4]]]]].
  exists m', e'. unfold extract_workflow_data, tarfile_open.
  rewrite Hfile, H4. auto.
Qed.

(** C10.  The mapping [extract_workflow_data] returns binds a requested
    name to the decoded content of the last member of the archive that
    bears it, whatever members of the same name come before. *)
Theorem extract_workflow_data_last_member_wins (w : world)
    (tar_file : string) (before after : list TarInfo) (m : TarInfo)
    (file_names : list string) :
  files w tar_file = Some (GzTar (before ++ m :: after)) ->
  In (name m) file_names ->
  (forall m', In m' after -> name m' <> name m) ->
  (forall m', In m' (before ++ m :: after) -> In (name m') file_names ->
              exists v, json_load (content m') = Ok v) ->
  exists d v,
    extract_workflow_data json_load tar_file file_names w = (Ok d, w) /\
    json_load (content m) = Ok v /\
    Dict.lookup (name m) d = Some v.
Proof.
  intros Hfile Hname Hlast Hall.
  destruct (extract_members_total _ file_names [] Hall) as [d Hd].
  destruct (Hall m) as [v Hv]; [rewrite in_app_iff; simpl; tauto | assumption |].
  exists d, v. unfold extract_workflow_data, tarfile_open. rewrite Hfile, Hd.
  split; [reflexivity | split; [assumption|]].
  rewrite extract_members_app in Hd.
  destruct (extract_members json_load before file_names []) as [d0|e0];
    [|discriminate].
  simpl in Hd. apply py_in_spec in Hname. rewrite Hname, Hv in Hd.
  rewrite (extract_members_other _ _ _ _ _ Hd Hlast).
  apply DictFacts.lookup_set_same.
Qed.

End Selector.

(** ** The orchestration *)

Lemma files_logging_info (msg : string) (w : world) :
  files (snd (logging_info msg w)) = files w.
Proof. unfold logging_info. simpl. now destruct (info_enabled (log_level w)). Qed.

Lemma logging_info_run (msg : string) (w : world) :
  logging_info msg w = (Ok tt, snd (logging_info msg w)).
Proof. reflexivity. Qed.

Lemma bind_logging_info (B : Type) (msg : string) (k : unit -> M B) (w : world) :
  bind (logging_info msg) k w = k tt (snd (logging_info msg w)).
Proof. reflexivity. Qed.

Lemma bind_basicConfig (B : Type) (level : string) (k : unit -> M B)
    (w : world) :
  bind (logging_basicConfig level) k w
  = k tt (mkWorld (files w) level (log w) (unwritable w)).
Proof. reflexivity. Qed.

Lemma bind_lift_Ok (A B : Type) (a : A) (k : A -> M B) (w : world) :
  bind (lift (Ok a)) k w = k a w.
Proof. reflexivity. Qed.

Lemma bind_write_file (B : Type) (path text : string) (k : unit -> M B)
    (w : world) :
  unwritable w path = None ->
  bind (write_file path text) k w = k tt (snd (write_file path text w)).
Proof. intros H. unfold bind, write_file. now rewrite H. Qed.

Lemma bind_write_file_fails (B : Type) (path text : string)
    (k : unit -> M B) (w : world) (e : exn) :
  unwritable w path = Some e ->
  bind (write_file path text) k w = (Raise e, w).
Proof. intros H. unfold bind, write_file. now rewrite H. Qed.

Lemma files_write_file (path text : string) (w : world) :
  unwritable w path = None ->
  files (snd (write_file path text w)) path = Some (Plain text) /\
  (forall p, p <> path -> files (snd (write_file path text w)) p = files w p).
Proof.
  intros H. unfold write_file. rewrite H. cbn [snd files].
  rewrite String.eqb_refl. split; [reflexivity|].
  intros p Hp. apply String.eqb_neq in Hp. now rewrite Hp.
Qed.

Lemma log_write_file (path text : string) (w : world) :
  log (snd (write_file path text w)) = log w.
Proof. unfold write_file. now destruct (unwritable w path). Qed.

Lemma log_level_write_file (path text : string) (w : world) :
  log_level (snd (write_file path text w)) = log_level w.
Proof. unfold write_file. now destruct (unwritable w path). Qed.

Lemma unwritable_logging_info (msg : string) (w : world) :
  unwritable (snd (logging_info msg w)) = unwritable w.
Proof. unfold logging_info. simpl. now destruct (info_enabled (log_level w)). Qed.

Lemma is_None_false (v : json) : v <> JNull -> is_None v = false.
Proof. destruct v; simpl; congruence. Qed.

Section Orchestration.

Variable json_load : string -> result json.
Variable json_dumps : json -> string.
Variable SeqeraPlatform : M unit.
Variable seqera_runs : list string -> M unit.

(** The archive is written where [get_runs_dump] says. *)
Lemma get_runs_dump_path (workflow_id workspace tar_file : string)
    (w w' : world) :
  get_runs_dump seqera_runs workflow_id workspace w = (Ok tar_file, w') ->
  tar_file = (workflow_id ++ ".tar.gz")%string /\
  seqera_runs
    ["dump"; "-id"; workflow_id; "-o"; tar_file; "-w"; workspace] w
  = (Ok tt, w').
Proof.
  unfold get_runs_dump, bind, ret.
  destruct (seqera_runs _ w) as [[[]|e] w1] eqn:E; [|discriminate].
  intros H. injection H as <- <-. split; [reflexivity | exact E].
Qed.

(** [main] up to the presence check, once the client has left an archive. *)
Lemma main_extracted (args : Namespace) (w w3 : world) (tar_file : string)
    (members : list TarInfo) (d : dict) :
  fetch SeqeraPlatform seqera_runs args w = (Ok tar_file, w3) ->
  files w3 tar_file = Some (GzTar members) ->
  extract_members json_load members
    ["workflow-load.json"; "workflow.json"] [] = Ok d ->
  main json_load json_dumps SeqeraPlatform seqera_runs args w
  = let w4 := snd (logging_info "Extracting workflow metadata..." w3) in
    let workflow_load := Dict.get d "workflow-load.json" in
    let workflow := Dict.get d "workflow.json" in
    if is_None workflow_load || is_None workflow
    then (Raise (ValueError missing_files_message), w4)
    else
      bind (logging_info "Parsing workflow metadata...")
        (fun _ =>
         bind (lift (parse_json workflow_load workflow_load_keys))
           (fun from_load =>
            bind (lift (parse_json workflow workflow_keys))
              (fun from_workflow =>
               bind (logging_info "Writing workflow metadata to JSON file...")
                 (fun _ =>
                  bind (write_file (output args)
                          (json_dumps
                             (JObject (Dict.merge from_load from_workflow))))
                    (fun _ =>
                     logging_info
                       ("Workflow metadata written to " ++ output args ++ ".")
                       %string))))) w4.
Proof.
  intros Hfetch Hfile Hd.
  unfold fetch in Hfetch. unfold main.
  rewrite bind_basicConfig in Hfetch. rewrite bind_basicConfig.
  unfold bind at 1 in Hfetch. unfold bind at 1.
  destruct (SeqeraPlatform _) as [[[]|e] w1]; [|discriminate].
  rewrite bind_logging_info in Hfetch. rewrite bind_logging_info.
  unfold bind at 1. rewrite Hfetch.
  rewrite bind_logging_info.
  unfold bind at 1. unfold extract_workflow_data, tarfile_open.
  rewrite files_logging_info, Hfile, Hd. cbv zeta.
  destruct (is_None (Dict.get d "workflow-load.json")
            || is_None (Dict.get d "workflow.json")); reflexivity.
Qed.

(** C3.  When the selector's result lacks either required member, [main]
    raises a [ValueError] with a descriptive message, and the files are as
    the client left them: nothing was written to the output path. *)
Theorem main_missing_member_raises_before_write (args : Namespace)
    (w w3 : world) (tar_file : string) (members : list TarInfo) (d : dict) :
  fetch SeqeraPlatform seqera_runs args w = (Ok tar_file, w3) ->
  files w3 tar_file = Some (GzTar members) ->
  extract_members json_load members
    ["workflow-load.json"; "workflow.json"] [] = Ok d ->
  Dict.lookup "workflow-load.json" d = None \/
  Dict.lookup "workflow.json" d = None ->
  exists w',
    main json_load json_dumps SeqeraPlatform seqera_runs args w
    = (Raise (ValueError
                "Required workflow files not found in the tar archive."),
       w') /\
    files w' = files w3.
Proof.
  intros Hfetch Hfile Hd Hmissing.
  exists (snd (logging_info "Extracting workflow metadata..." w3)).
  split; [|apply files_logging_info].
  rewrite (main_extracted args w w3 tar_file members d Hfetch Hfile Hd).
  cbv zeta. unfold Dict.get.
  destruct Hmissing as [-> | ->]; simpl; [reflexivity|].
  now rewrite orb_true_r.
Qed.


End Orchestration.

(** ** Closed instances *)

Lemma extract_workflow_data_selects_witness :
  exists d,
    extract_workflow_data (table_load sample_documents) "42.tar.gz"
      ["workflow-load.json"; "workflow.json"; "absent.json"]
      (archive_world full_archive)
    = (Ok d, archive_world full_archive) /\
    (forall n, In n (Dict.keys d) <->
               In n ["workflow-load.json"; "workflow.json"; "absent.json"] /\
               exists m, In m full_archive /\ name m = n) /\
    extract_members (table_load sample_documents)
      (filter
         (fun m =>
            py_in (name m) ["workflow-load.json"; "workflow.json"; "absent.json"])
         full_archive)
      ["workflow-load.json"; "workflow.json"; "absent.json"] []
    = Ok d.
Proof.
  apply (extract_workflow_data_selects (table_load sample_documents)
           (archive_world full_archive) "42.tar.gz" full_archive
           ["workflow-load.json"; "workflow.json"; "absent.json"]).
  - reflexivity.
  - intros m Hin Hname. simpl in Hin.
    destruct Hin as [<-|[<-|[<-|[<-|[]]]]];
      try (eexists; reflexivity).
    simpl in Hname.
    repeat (destruct Hname as [Hname|Hname]; [discriminate|]).
    destruct Hname.
Defined.

Example extract_full_archive :
  extract_workflow_data (table_load sample_documents) "42.tar.gz"
    ["workflow-load.json"; "workflow.json"; "absent.json"]
    (archive_world full_archive)
  = (Ok [ ("workflow-load.json", JObject [("cost", JInt 2)]);
          ("workflow.json", JObject [("id", JInt 7)]) ],
     archive_world full_archive).
Proof. reflexivity. Qed.

Lemma extract_workflow_data_propagates_parse_error_witness :
  exists m' e',
    In m' broken_archive /\ In (name m') requested /\
    table_load sample_documents (content m') = Raise e' /\
    extract_workflow_data (table_load sample_documents) "42.tar.gz" requested
      (archive_world broken_archive)
    = (Raise e', archive_world broken_archive).
Proof.
  apply (extract_workflow_data_propagates_parse_error
           (table_load sample_documents) (archive_world broken_archive)
           "42.tar.gz" broken_archive requested
           (mkTarInfo "workflow.json" "{") (JSONDecodeError "Expecting value")).
  - reflexivity.
  - simpl. tauto.
  - simpl. tauto.
  - reflexivity.
Defined.

Example extract_broken_archive :
  extract_workflow_data (table_load sample_documents) "42.tar.gz" requested
    (archive_world broken_archive)
  = (Raise (JSONDecodeError "Expecting value"), archive_world broken_archive).
Proof. reflexivity. Qed.

Lemma extract_workflow_data_last_member_wins_witness :
  exists d v,
    extract_workflow_data (table_load sample_documents) "42.tar.gz" requested
      (archive_world full_archive)
    = (Ok d, archive_world full_archive) /\
    table_load sample_documents cost_text = Ok v /\
    Dict.lookup "workflow-load.json" d = Some v.
Proof.
  apply (extract_workflow_data_last_member_wins (table_load sample_documents)
           (archive_world full_archive) "42.tar.gz"
           [ mkTarInfo "workflow-load.json" "null"; mkTarInfo "README" "not json" ]
           [ mkTarInfo "workflow.json" id_text ]
           (mkTarInfo "workflow-load.json" cost_text) requested).
  - reflexivity.
  - simpl. tauto.
  - intros m' [<-|[]]. discriminate.
  - intros m' Hin Hname. simpl in Hin.
    destruct Hin as [<-|[<-|[<-|[<-|[]]]]];
      try (eexists; reflexivity).
    simpl in Hname.
    repeat (destruct Hname as [Hname|Hname]; [discriminate|]).
    destruct Hname.
Defined.

Lemma main_missing_member_raises_before_write_witness :
  exists w',
    main (table_load sample_documents) keys_dumps (ret tt)
      (archive_client partial_archive) sample_args empty_world
    = (Raise (ValueError
                "Required workflow files not found in the tar archive."),
       w') /\
    files w'
    = files (snd (fetch (ret tt) (archive_client partial_archive)
                    sample_args empty_world)).
Proof.
  apply (main_missing_member_raises_before_write
           (table_load sample_documents) keys_dumps (ret tt)
           (archive_client partial_archive) sample_args empty_world
           (snd (fetch (ret tt) (archive_client partial_archive)
                   sample_args empty_world))
           "42.tar.gz" partial_archive
           [("workflow.json", JObject [("id", JInt 7)])]).
  - reflexivity.
  - reflexivity.
  - reflexivity.
  - left. reflexivity.
Defined.

Example main_partial_archive_output_untouched :
  files (snd (main (table_load sample_documents) keys_dumps (ret tt)
                (archive_client partial_archive) sample_args empty_world))
    "out.json"
  = None.
Proof. reflexivity. Qed.


Example main_full_archive_output :
  files (snd (main (table_load sample_documents) keys_dumps (ret tt)
                (archive_client full_archive) sample_args empty_world))
    "out.json"
  = Some (Plain "cost,id").
Proof. reflexivity. Qed.

(** * Further properties of the code *)

(** ** [str.split] *)

Lemma split_no_sep (sep : ascii) (s : string) :
  has_sep sep s = false -> split sep s = [s].
Proof.
  induction s as [|c s IH]; simpl; [reflexivity|].
  destruct (Ascii.eqb c sep); simpl; [discriminate|].
  intros H. now rewrite (IH H).
Qed.

Lemma split_segments_no_sep (sep : ascii) (s seg : string) :
  In seg (split sep s) -> has_sep sep seg = false.
Proof.
  revert seg. induction s as [|c s IH]; simpl; intros seg.
  - intros [<-|[]]. reflexivity.
  - destruct (Ascii.eqb c sep) eqn:E.
    + intros [<-|Hin]; [reflexivity | now apply IH].
    + destruct (split sep s) as [|part parts]; simpl.
      * intros [<-|[]]. simpl. now rewrite E.
      * intros [<-|Hin].
        -- simpl. rewrite E. simpl. apply IH. now left.
        -- apply IH. now right.
Qed.

Lemma split_app (sep : ascii) (a rest : string) :
  has_sep sep a = false ->
  split sep (a ++ String sep rest) = a :: split sep rest.
Proof.
  induction a as [|c a IH]; simpl.
  - intros _. now rewrite Ascii.eqb_refl.
  - destruct (Ascii.eqb c sep); simpl; [discriminate|].
    intros H. now rewrite (IH H).
Qed.

Lemma split_head_differs (sep : ascii) (s : string) :
  has_sep sep s = true ->
  exists first others, split sep s = first :: others /\ first <> s.
Proof.
  intros Hs. destruct (split sep s) as [|first others] eqn:E.
  - now elim (split_nonempty sep s).
  - exists first, others. split; [reflexivity|].
    intros ->. assert (H : has_sep sep s = false).
    { apply (split_segments_no_sep sep s). rewrite E. now left. }
    congruence.
Qed.

(** X8.  Joining the segments of a key with the separator gives the key back, and
    no segment holds the separator. *)
Theorem split_join (sep : ascii) (s : string) :
  String.concat (String sep EmptyString) (split sep s) = s /\
  (forall seg, In seg (split sep s) -> has_sep sep seg = false).
Proof.
  split; [|intros seg; apply split_segments_no_sep].
  induction s as [|c s IH]; simpl; [reflexivity|].
  destruct (Ascii.eqb_spec c sep) as [->|Hne].
  - pose proof (split_nonempty sep s) as Hne.
    simpl. destruct (split sep s) as [|part parts]; [congruence|].
    now rewrite IH.
  - destruct (split sep s) as [|part parts] eqn:E.
    + now elim (split_nonempty sep s).
    + simpl in *. destruct parts as [|part' parts'].
      * now rewrite IH.
      * rewrite <- IH. reflexivity.
Qed.

(** ** More on [parse_json] *)

Lemma walk_Raised_iff (parts : list string) (tree : json) :
  walk tree parts = Raised AttributeError <->
  exists before segment after v,
    parts = before ++ segment :: after /\
    lookup_path tree before = Some v /\
    is_mapping v = false /\
    (v = JNull -> before = []).
Proof.
  revert tree. induction parts as [|a l IH]; intros tree.
  - simpl. split; [discriminate|].
    intros [before [segment [after [v [H _]]]]].
    destruct before; discriminate.
  - assert (Hscalar : is_mapping tree = false ->
              exists before segment after v,
                a :: l = before ++ segment :: after /\
                lookup_path tree before = Some v /\
                is_mapping v = false /\ (v = JNull -> before = [])).
    { intros Hm. exists [], a, l, tree. simpl. auto. }
    destruct tree; simpl;
      try (split; [intros _; apply Hscalar; reflexivity | reflexivity]).
    unfold Dict.get.
    destruct (Dict.lookup a fields) as [v'|] eqn:Ea; simpl.
    + destruct (is_None v') eqn:En.
      * split; [discriminate|].
        intros [before [segment [after [v [Hparts [Hpath [Hm Hnull]]]]]]].
        destruct before as [|b before]; simpl in *.
        -- injection Hpath as <-. discriminate.
        -- injection Hparts as <- _. rewrite Ea in Hpath.
           destruct v'; try discriminate.
           destruct before; simpl in Hpath; [|discriminate].
           injection Hpath as <-. specialize (Hnull eq_refl). discriminate.
      * rewrite IH. split.
        -- intros [before [segment [after [v [Hparts [Hpath [Hm Hnull]]]]]]].
           exists (a :: before), segment, after, v. simpl. rewrite Ea.
           repeat split; try assumption; [now rewrite Hparts|].
           intros ->. specialize (Hnull eq_refl). subst before.
           simpl in Hpath. injection Hpath as ->. discriminate.
        -- intros [before [segment [after [v [Hparts [Hpath [Hm Hnull]]]]]]].
           destruct before as [|b before]; simpl in *.
           ++ injection Hpath as <-. discriminate.
           ++ injection Hparts as <- Hl. rewrite Ea in Hpath.
              exists before, segment, after, v.
              repeat split; try assumption.
              intros Hv. specialize (Hnull Hv). discriminate.
    + split; [discriminate|].
      intros [before [segment [after [v [Hparts [Hpath [Hm Hnull]]]]]]].
      destruct before as [|b before]; simpl in *.
      * injection Hpath as <-. discriminate.
      * injection Hparts as <- _. rewrite Ea in Hpath. discriminate.
Qed.

Lemma parse_json_only_AttributeError (tree : json) (keys_list : list string)
    (acc : dict) (e : exn) :
  parse_json_loop tree keys_list acc = Raise e -> e = AttributeError.
Proof.
  revert acc. induction keys_list as [|k l IH]; intros acc; simpl.
  - discriminate.
  - destruct (resolve tree k) as [v| |e0] eqn:E; try apply IH.
    pose proof (walk_Raised _ _ _ E) as ->. simpl. congruence.
Qed.

(** On a mapping no walk raises, provided that what the segments before a
    segment address is always a mapping or null. *)
Lemma mapping_walks_do_not_raise (tree : json) (keys_list : list string) :
  is_mapping tree = true ->
  (forall k before segment after v,
     In k keys_list ->
     split "." k = before ++ segment :: after ->
     lookup_path tree before = Some v ->
     is_mapping v = true \/ v = JNull) ->
  forall k, In k keys_list -> resolve tree k <> Raised AttributeError.
Proof.
  intros Hroot Hpaths k Hin Hraise. unfold resolve in Hraise.
  apply walk_Raised_iff in Hraise.
  destruct Hraise as [before [segment [after [v [Hsplit [Hpath [Hm Hnull]]]]]]].
  destruct (Hpaths k before segment after v Hin Hsplit Hpath) as [Hv|Hv].
  - congruence.
  - specialize (Hnull Hv). subst before. simpl in Hpath.
    injection Hpath as <-. congruence.
Qed.

Lemma parse_json_raises_AttributeError (tree : json)
    (keys_list : list string) (e : exn) :
  parse_json tree keys_list = Raise e -> e = AttributeError.
Proof. apply parse_json_only_AttributeError. Qed.

(** X2.  [parse_json] raises nothing but [AttributeError], and raises it exactly
    when, for some key, the segments before some segment of the key address
    a value that is not a mapping and that is not null, unless it is the root
    itself. *)
Theorem parse_json_raises_exactly (tree : json) (keys_list : list string) :
  (forall e, parse_json tree keys_list = Raise e -> e = AttributeError) /\
  (parse_json tree keys_list = Raise AttributeError <->
   exists k before segment after v,
     In k keys_list /\
     split "." k = before ++ segment :: after /\
     lookup_path tree before = Some v /\
     is_mapping v = false /\
     (v = JNull -> before = [])).
Proof.
  split; [intros e; apply parse_json_only_AttributeError|].
  rewrite parse_json_raises_iff. unfold resolve. split.
  - intros [k [Hin Hk]]. apply walk_Raised_iff in Hk.
    destruct Hk as [before [segment [after [v H]]]].
    now exists k, before, segment, after, v.
  - intros [k [before [segment [after [v [Hin H]]]]]].
    exists k. split; [assumption|]. apply walk_Raised_iff.
    now exists before, segment, after, v.
Qed.

Lemma parse_json_lookup_not_null (tree : json) (keys_list : list string)
    (d : dict) (k : string) (v : json) :
  parse_json tree keys_list = Ok d -> Dict.lookup k d = Some v -> v <> JNull.
Proof.
  intros H Hk. apply parse_json_Ok in H. destruct H as [-> _].
  rewrite lookup_fold_record in Hk. simpl in Hk.
  destruct (resolve tree k) as [v'| |e] eqn:E; try discriminate.
  destruct (py_in k keys_list); [|discriminate].
  injection Hk as <-. now destruct (resolve_Exhausted _ _ _ E).
Qed.

(** X1.  No value of the mapping [parse_json] returns is null. *)
Theorem parse_json_values_not_null (tree : json) (keys_list : list string)
    (d : dict) :
  parse_json tree keys_list = Ok d ->
  forall k v, Dict.lookup k d = Some v -> v <> JNull.
Proof. intros H k v. now apply parse_json_lookup_not_null with (1 := H). Qed.

Lemma parse_json_values_not_null_witness :
  parse_json sample_tree sample_keys = Ok [("a.b", JInt 5); ("n", JInt 1)] /\
  JInt 1 <> JNull.
Proof.
  split; [reflexivity|].
  exact (parse_json_values_not_null sample_tree sample_keys
           [("a.b", JInt 5); ("n", JInt 1)] eq_refl "n" (JInt 1) eq_refl).
Defined.

(** X3.  On a root that is not a mapping, null included, [parse_json] raises
    [AttributeError] as soon as there is a key to look for. *)
Theorem parse_json_non_mapping_root (tree : json) (keys_list : list string) :
  is_mapping tree = false -> keys_list <> [] ->
  parse_json tree keys_list = Raise AttributeError.
Proof.
  intros Hm Hne. destruct keys_list as [|k l]; [congruence|].
  unfold parse_json. simpl. unfold resolve.
  destruct (split "." k) as [|part parts] eqn:E.
  - now elim (split_nonempty "." k).
  - destruct tree; try discriminate; reflexivity.
Qed.

Lemma parse_json_non_mapping_root_witness :
  parse_json (JArray [JObject [("id", JInt 7)]]) ["id"] = Raise AttributeError /\
  parse_json JNull workflow_keys = Raise AttributeError.
Proof.
  split.
  - apply (parse_json_non_mapping_root (JArray [JObject [("id", JInt 7)]]) ["id"]);
      [reflexivity | discriminate].
  - apply (parse_json_non_mapping_root JNull workflow_keys);
      [reflexivity | discriminate].
Defined.

Lemma set_lookup_id (k : string) (v : json) (d : dict) :
  Dict.lookup k d = Some v -> Dict.set k v d = d.
Proof.
  induction d as [|[k0 v0] d IH]; simpl; [discriminate|].
  destruct (String.eqb k0 k).
  - intros H. now injection H as ->.
  - intros H. now rewrite (IH H).
Qed.

Lemma update_app (d a b : dict) :
  Dict.update d (a ++ b) = Dict.update (Dict.update d a) b.
Proof. unfold Dict.update. apply fold_left_app. Qed.

Lemma fold_record_NoDup (tree : json) (keys_list : list string) :
  NoDup (Dict.keys (fold_left (record_key tree) keys_list [])).
Proof. rewrite keys_fold_record. simpl. apply first_occurrences_NoDup. Qed.

Lemma fold_record_update (tree : json) (keys_list : list string) (acc : dict) :
  fold_left (record_key tree) keys_list acc
  = Dict.update acc (fold_left (record_key tree) keys_list []).
Proof.
  induction keys_list as [|k l IH] using rev_ind; [reflexivity|].
  rewrite !fold_left_app. simpl. rewrite IH. unfold record_key at 1 3.
  destruct (resolve tree k) as [v| |e] eqn:E; try reflexivity.
  set (d := fold_left (record_key tree) l []).
  assert (Hd : Dict.lookup k d
               = if py_in k l then Some v else None).
  { unfold d. rewrite lookup_fold_record, E. reflexivity. }
  destruct (py_in k l).
  - rewrite (set_lookup_id _ _ _ Hd). apply set_lookup_id.
    rewrite DictFacts.lookup_update by apply fold_record_NoDup.
    fold d. now rewrite Hd.
  - apply DictFacts.lookup_None in Hd.
    rewrite (DictFacts.set_fresh k v d Hd), update_app. reflexivity.
Qed.

(** X4.  Extracting along a concatenated key list is extracting along the first
    list and updating the result with the extraction along the second. *)
Theorem parse_json_app (tree : json) (keys1 keys2 : list string)
    (d1 d2 : dict) :
  parse_json tree keys1 = Ok d1 ->
  parse_json tree keys2 = Ok d2 ->
  parse_json tree (keys1 ++ keys2) = Ok (Dict.update d1 d2).
Proof.
  intros H1 H2.
  apply parse_json_Ok in H1. destruct H1 as [-> Hok1].
  apply parse_json_Ok in H2. destruct H2 as [-> Hok2].
  unfold parse_json. rewrite parse_json_loop_fold.
  - now rewrite fold_left_app, fold_record_update.
  - apply no_AttributeError_no_raise. intros k Hin.
    apply in_app_or in Hin. destruct Hin; auto.
Qed.

Lemma parse_json_app_witness :
  parse_json sample_tree (["n"; "a.b"] ++ ["x"; "a"; "n"])
  = Ok (Dict.update [("n", JInt 1); ("a.b", JInt 5)]
          [("a", JObject [("b", JInt 5)]); ("n", JInt 1)]).
Proof.
  apply (parse_json_app sample_tree ["n"; "a.b"] ["x"; "a"; "n"]);
    reflexivity.
Defined.

(** X5.  On a mapping, keys without a dot never make [parse_json] raise, and each
    is stored with the value the mapping binds it to, unless that is null or
    the key is not bound. *)
Theorem parse_json_top_level_keys (fields : dict) (keys_list : list string) :
  (forall k, In k keys_list -> has_sep "." k = false) ->
  exists d,
    parse_json (JObject fields) keys_list = Ok d /\
    (forall k, In k keys_list ->
               Dict.lookup k d = stored (Dict.lookup k fields)).
Proof.
  intros Hplain.
  assert (Hres : forall k, In k keys_list ->
            resolve (JObject fields) k
            = match stored (Dict.lookup k fields) with
              | Some v => Exhausted v
              | None => Broke
              end).
  { intros k Hin. unfold resolve. rewrite (split_no_sep _ _ (Hplain k Hin)).
    simpl. unfold Dict.get, stored.
    destruct (Dict.lookup k fields) as [v|]; simpl; [|reflexivity].
    now destruct (is_None v). }
  exists (fold_left (record_key (JObject fields)) keys_list []). split.
  - apply parse_json_loop_fold. intros k Hin e. rewrite (Hres k Hin).
    destruct (stored (Dict.lookup k fields)); discriminate.
  - intros k Hin. rewrite lookup_fold_record, (Hres k Hin). simpl.
    apply py_in_spec in Hin. rewrite Hin.
    now destruct (stored (Dict.lookup k fields)).
Qed.

Lemma parse_json_top_level_keys_witness :
  exists d,
    parse_json (JObject [("cost", JInt 2); ("peakCpus", JNull)])
      workflow_load_keys = Ok d /\
    (forall k, In k workflow_load_keys ->
       Dict.lookup k d
       = stored (Dict.lookup k [("cost", JInt 2); ("peakCpus", JNull)])).
Proof.
  apply (parse_json_top_level_keys [("cost", JInt 2); ("peakCpus", JNull)]
           workflow_load_keys).
  intros k Hin. simpl in Hin.
  repeat (destruct Hin as [<-|Hin]; [reflexivity|]). destruct Hin.
Defined.

(** X6.  The walk along [first.rest], [first] without a dot: on a mapping that
    binds [first] to a value other than null it is the walk along [rest] in
    that value; on a mapping that does not, it stops; on anything else it
    raises. *)
Theorem resolve_nested (tree : json) (first rest : string) :
  has_sep "." first = false ->
  resolve tree (first ++ String "." rest)
  = match tree with
    | JObject fields =>
        match stored (Dict.lookup first fields) with
        | Some v => resolve v rest
        | None => Broke
        end
    | _ => Raised AttributeError
    end.
Proof.
  intros Hplain. unfold resolve. rewrite (split_app _ _ _ Hplain).
  destruct tree; try reflexivity.
  simpl. unfold Dict.get, stored.
  destruct (Dict.lookup first fields) as [v|]; simpl; [|reflexivity].
  now destruct (is_None v).
Qed.

Lemma resolve_nested_witness :
  resolve dotted_tree ("params" ++ String "." "input")
  = resolve (JObject [("input", JString "nested")]) "input".
Proof.
  exact (resolve_nested dotted_tree "params" "input" eq_refl).
Defined.

(** X7.  A field whose own name holds a dot is never read for the key of that
    name: the key is split, and its first segment is another name. *)
Theorem parse_json_literal_dotted_key (key : string) (v : json)
    (fields : dict) :
  has_sep "." key = true ->
  parse_json (JObject ((key, v) :: fields)) [key]
  = parse_json (JObject fields) [key].
Proof.
  intros Hdot. unfold parse_json. simpl. unfold resolve.
  destruct (split_head_differs "." key Hdot) as [first [others [-> Hne]]].
  simpl. unfold Dict.get. simpl.
  apply not_eq_sym in Hne. apply String.eqb_neq in Hne. rewrite String.eqb_sym in Hne.
  rewrite String.eqb_sym, Hne. reflexivity.
Qed.

Lemma parse_json_literal_dotted_key_witness :
  parse_json dotted_tree ["params.input"]
  = parse_json (JObject [("params", JObject [("input", JString "nested")])])
      ["params.input"].
Proof.
  exact (parse_json_literal_dotted_key "params.input" (JString "literal")
           [("params", JObject [("input", JString "nested")])] eq_refl).
Defined.

Example parse_json_dotted_tree :
  parse_json dotted_tree ["params.input"]
  = Ok [("params.input", JString "nested")].
Proof. reflexivity. Qed.

(** X9.  A key asked of both trees comes out of the merge with the second tree's
    value when that is not null, and else with the first tree's value when
    that is not null, and else not at all. *)
Theorem merge_shared_key_falls_back (tree1 tree2 : json)
    (keys1 keys2 : list string) (d1 d2 : dict) (k : string) :
  parse_json tree1 keys1 = Ok d1 ->
  parse_json tree2 keys2 = Ok d2 ->
  In k keys1 -> In k keys2 ->
  Dict.lookup k (Dict.merge d1 d2)
  = if is_None (path_value tree2 k)
    then (if is_None (path_value tree1 k) then None
          else Some (path_value tree1 k))
    else Some (path_value tree2 k).
Proof.
  intros H1 H2 Hin1 Hin2.
  pose proof (parse_json_NoDup _ _ _ H1) as Hnd1.
  pose proof (parse_json_NoDup _ _ _ H2) as Hnd2.
  unfold Dict.merge. rewrite update_nil_NoDup by assumption.
  rewrite DictFacts.lookup_update by assumption.
  apply parse_json_Ok in H1. destruct H1 as [-> Hok1].
  apply parse_json_Ok in H2. destruct H2 as [-> Hok2].
  rewrite !lookup_parse_json
    by (intros e; now apply (no_AttributeError_no_raise _ _ Hok1)
                  || now apply (no_AttributeError_no_raise _ _ Hok2)).
  apply py_in_spec in Hin1, Hin2. rewrite Hin1, Hin2. simpl.
  destruct (is_None (path_value tree2 k)); simpl; [|reflexivity].
  now destruct (is_None (path_value tree1 k)).
Qed.

Lemma merge_shared_key_falls_back_witness :
  Dict.lookup "dateCreated"
    (Dict.merge [("cost", JInt 2); ("dateCreated", JString "load")]
                [("id", JInt 7)])
  = if is_None (path_value (JObject [("id", JInt 7); ("dateCreated", JNull)])
                  "dateCreated")
    then (if is_None
               (path_value
                  (JObject [("cost", JInt 2); ("dateCreated", JString "load")])
                  "dateCreated")
          then None
          else Some (path_value
                       (JObject [("cost", JInt 2);
                                 ("dateCreated", JString "load")])
                       "dateCreated"))
    else Some (path_value (JObject [("id", JInt 7); ("dateCreated", JNull)])
                 "dateCreated").
Proof.
  apply (merge_shared_key_falls_back
           (JObject [("cost", JInt 2); ("dateCreated", JString "load")])
           (JObject [("id", JInt 7); ("dateCreated", JNull)])
           workflow_load_keys workflow_keys).
  - reflexivity.
  - reflexivity.
  - simpl. tauto.
  - simpl. tauto.
Defined.

(** ** More on the archive member selector *)

Section SelectorMore.

Variable json_load : string -> result json.

Lemma extract_members_no_names (members : list TarInfo) (acc : dict) :
  extract_members json_load members [] acc = Ok acc.
Proof. induction members as [|m l IH]; simpl; [reflexivity | apply IH]. Qed.

(** X10.  Asked for no name, the selector decodes nothing and returns the empty
    mapping, whatever the members of the archive hold. *)
Theorem extract_workflow_data_no_names (w : world) (tar_file : string)
    (members : list TarInfo) :
  files w tar_file = Some (GzTar members) ->
  extract_workflow_data json_load tar_file [] w = (Ok [], w).
Proof.
  intros Hfile. unfold extract_workflow_data, tarfile_open.
  now rewrite Hfile, extract_members_no_names.
Qed.

Lemma extract_members_first_failure (members : list TarInfo)
    (names : list string) (acc : dict) (e : exn) :
  extract_members json_load members names acc = Raise e <->
  exists before m after,
    members = before ++ m :: after /\
    In (name m) names /\
    json_load (content m) = Raise e /\
    (forall m', In m' before -> In (name m') names ->
                exists v, json_load (content m') = Ok v).
Proof.
  revert acc. induction members as [|m0 l IH]; intros acc; simpl.
  - split; [discriminate|].
    intros [before [m [after [H _]]]]. destruct before; discriminate.
  - destruct (py_in (name m0) names) eqn:E.
    + apply py_in_spec in E.
      destruct (json_load (content m0)) as [v0|e0] eqn:E0.
      * rewrite IH. split.
        -- intros [before [m [after [-> [Hn [Hbad Hgood]]]]]].
           exists (m0 :: before), m, after.
           repeat split; try assumption.
           intros m' [<-|Hin] Hn'; eauto.
        -- intros [before [m [after [Hl [Hn [Hbad Hgood]]]]]].
           destruct before as [|b before]; simpl in Hl.
           ++ injection Hl as <- _. congruence.
           ++ injection Hl as <- ->. exists before, m, after.
              repeat split; try assumption.
              intros m' Hin Hn'. apply Hgood; [now right | assumption].
      * split.
        -- intros H. injection H as <-. exists [], m0, l.
           repeat split; try assumption. intros m' [].
        -- intros [before [m [after [Hl [Hn [Hbad Hgood]]]]]].
           destruct before as [|b before]; simpl in Hl.
           ++ injection Hl as <- _. congruence.
           ++ injection Hl as <- _.
              destruct (Hgood m0 (or_introl eq_refl) E) as [v Hv]. congruence.
    + apply py_in_false in E. rewrite IH. split.
      * intros [before [m [after [-> [Hn [Hbad Hgood]]]]]].
        exists (m0 :: before), m, after.
        repeat split; try assumption.
        intros m' [<-|Hin] Hn'; [contradiction | eauto].
      * intros [before [m [after [Hl [Hn [Hbad Hgood]]]]]].
        destruct before as [|b before]; simpl in Hl.
        -- injection Hl as <- _. contradiction.
        -- injection Hl as <- ->. exists before, m, after.
           repeat split; try assumption.
           intros m' Hin Hn'. apply Hgood; [now right | assumption].
Qed.

(** X11.  The selector raises [e] exactly when [e] is what the decoder raises on
    the first requested member it cannot decode; the members after that one
    are not looked at. *)
Theorem extract_workflow_data_first_failure (w : world) (tar_file : string)
    (members : list TarInfo) (file_names : list string) (e : exn) :
  files w tar_file = Some (GzTar members) ->
  (extract_workflow_data json_load tar_file file_names w = (Raise e, w) <->
   exists before m after,
     members = before ++ m :: after /\
     In (name m) file_names /\
     json_load (content m) = Raise e /\
     (forall m', In m' before -> In (name m') file_names ->
                 exists v, json_load (content m') = Ok v)).
Proof.
  intros Hfile. unfold extract_workflow_data, tarfile_open. rewrite Hfile.
  rewrite <- (extract_members_first_failure members file_names [] e). split.
  - intros H. injection H as H. exact H.
  - intros H. now rewrite H.
Qed.

Lemma extract_members_key_order (members : list TarInfo) (names : list string)
    (acc d : dict) :
  extract_members json_load members names acc = Ok d ->
  Dict.keys d
  = Dict.keys acc
    ++ first_occurrences (Dict.keys acc)
         (filter (fun n => py_in n names) (map name members)).
Proof.
  revert acc d. induction members as [|m l IH]; intros acc d; simpl.
  - intros H. injection H as <-. now rewrite app_nil_r.
  - destruct (py_in (name m) names) eqn:E; [|apply IH].
    destruct (json_load (content m)) as [v|e]; [|discriminate].
    intros H. rewrite (IH _ _ H). simpl.
    destruct (py_in (name m) (Dict.keys acc)) eqn:Hin.
    + apply py_in_spec in Hin. now rewrite DictFacts.set_present.
    + apply py_in_false in Hin. rewrite DictFacts.set_fresh by assumption.
      unfold Dict.keys. rewrite map_app, <- app_assoc. simpl. do 2 f_equal.
      apply first_occurrences_ext. intros x. rewrite in_app_iff. simpl. tauto.
Qed.

(** X12.  The keys of the selector's result are the requested names among the
    member names, each once, in the order in which the archive first lists
    them. *)
Theorem extract_workflow_data_key_order (w : world) (tar_file : string)
    (members : list TarInfo) (file_names : list string) (d : dict) :
  files w tar_file = Some (GzTar members) ->
  extract_workflow_data json_load tar_file file_names w = (Ok d, w) ->
  Dict.keys d
  = first_occurrences []
      (filter (fun n => py_in n file_names) (map name members)) /\
  NoDup (Dict.keys d).
Proof.
  intros Hfile. unfold extract_workflow_data, tarfile_open. rewrite Hfile.
  intros H. injection H as H.
  rewrite (extract_members_key_order _ _ _ _ H). simpl.
  split; [reflexivity | apply first_occurrences_NoDup].
Qed.

Lemma extract_members_names_ext (members : list TarInfo)
    (names names' : list string) (acc : dict) :
  (forall n, In n names <-> In n names') ->
  extract_members json_load members names acc
  = extract_members json_load members names' acc.
Proof.
  intros Hext. revert acc. induction members as [|m l IH]; intros acc; simpl.
  - reflexivity.
  - assert (E : py_in (name m) names = py_in (name m) names').
    { destruct (py_in (name m) names) eqn:E1, (py_in (name m) names') eqn:E2;
        try reflexivity.
      - apply py_in_spec in E1. apply py_in_false in E2.
        apply Hext in E1. contradiction.
      - apply py_in_spec in E2. apply py_in_false in E1.
        apply Hext in E2. contradiction. }
    rewrite E. destruct (py_in (name m) names'); [|apply IH].
    destruct (json_load (content m)); [apply IH | reflexivity].
Qed.

(** X13.  The selector's outcome depends on which names are requested, not on
    their order nor on how often each is given. *)
Theorem extract_workflow_data_names_as_set (w : world) (tar_file : string)
    (file_names file_names' : list string) :
  (forall n, In n file_names <-> In n file_names') ->
  extract_workflow_data json_load tar_file file_names w
  = extract_workflow_data json_load tar_file file_names' w.
Proof.
  intros Hext. unfold extract_workflow_data.
  destruct (tarfile_open (files w) tar_file); [|reflexivity].
  now rewrite (extract_members_names_ext _ _ _ _ Hext).
Qed.

End SelectorMore.

Lemma extract_workflow_data_no_names_witness :
  extract_workflow_data (table_load sample_documents) "42.tar.gz" []
    (archive_world broken_archive)
  = (Ok [], archive_world broken_archive).
Proof.
  exact (extract_workflow_data_no_names (table_load sample_documents)
           (archive_world broken_archive) "42.tar.gz" broken_archive eq_refl).
Defined.

Lemma extract_workflow_data_first_failure_witness :
  extract_workflow_data (table_load sample_documents) "42.tar.gz" requested
    (archive_world
       (mkTarInfo "README" "not json" :: full_archive ++ broken_archive))
  = (Raise (JSONDecodeError "Expecting value"),
     archive_world
       (mkTarInfo "README" "not json" :: full_archive ++ broken_archive)).
Proof.
  apply (extract_workflow_data_first_failure (table_load sample_documents)
           (archive_world
              (mkTarInfo "README" "not json" :: full_archive ++ broken_archive))
           "42.tar.gz"
           (mkTarInfo "README" "not json" :: full_archive ++ broken_archive)
           requested (JSONDecodeError "Expecting value") eq_refl).
  exists (mkTarInfo "README" "not json" :: full_archive),
         (mkTarInfo "workflow.json" "{"),
         [mkTarInfo "workflow-load.json" cost_text].
  split; [reflexivity | split; [simpl; tauto | split; [reflexivity|]]].
  intros m' Hin Hname. simpl in Hin.
  destruct Hin as [<-|[<-|[<-|[<-|[<-|[]]]]]];
    try (eexists; reflexivity);
    simpl in Hname;
    repeat (destruct Hname as [Hname|Hname]; [discriminate|]);
    destruct Hname.
Defined.

Lemma extract_workflow_data_key_order_witness :
  Dict.keys [ ("workflow-load.json", JObject [("cost", JInt 2)]);
              ("workflow.json", JObject [("id", JInt 7)]) ]
  = first_occurrences []
      (filter (fun n => py_in n ["workflow.json"; "workflow-load.json"])
         (map name full_archive)) /\
  NoDup (Dict.keys [ ("workflow-load.json", JObject [("cost", JInt 2)]);
                     ("workflow.json", JObject [("id", JInt 7)]) ]).
Proof.
  exact (extract_workflow_data_key_order (table_load sample_documents)
           (archive_world full_archive) "42.tar.gz" full_archive
           ["workflow.json"; "workflow-load.json"]
           [ ("workflow-load.json", JObject [("cost", JInt 2)]);
             ("workflow.json", JObject [("id", JInt 7)]) ]
           eq_refl eq_refl).
Defined.

Lemma extract_workflow_data_names_as_set_witness :
  extract_workflow_data (table_load sample_documents) "42.tar.gz"
    ["workflow.json"; "workflow-load.json"; "workflow.json"]
    (archive_world full_archive)
  = extract_workflow_data (table_load sample_documents) "42.tar.gz" requested
      (archive_world full_archive).
Proof.
  apply (extract_workflow_data_names_as_set (table_load sample_documents)
           (archive_world full_archive) "42.tar.gz"
           ["workflow.json"; "workflow-load.json"; "workflow.json"] requested).
  intros n. unfold requested. simpl. tauto.
Defined.

(** ** More on the orchestration *)

Lemma bind_lift_Raise (A B : Type) (e : exn) (k : A -> M B) (w : world) :
  bind (lift (@Raise A e)) k w = (Raise e, w).
Proof. reflexivity. Qed.

Lemma log_level_logging_info (msg : string) (w : world) :
  log_level (snd (logging_info msg w)) = log_level w.
Proof. unfold logging_info. simpl. now destruct (info_enabled (log_level w)). Qed.

Lemma log_logging_info (msg : string) (w : world) :
  log (snd (logging_info msg w))
  = if info_enabled (log_level w) then log w ++ [msg] else log w.
Proof. unfold logging_info. simpl. now destruct (info_enabled (log_level w)). Qed.

Lemma In_keys_update (n : string) (other d : dict) :
  In n (Dict.keys (Dict.update d other)) <->
  In n (Dict.keys d) \/ In n (Dict.keys other).
Proof.
  revert d. induction other as [|[k v] other IH]; intros d; simpl.
  - tauto.
  - unfold Dict.update in *. simpl. rewrite IH, DictFacts.In_keys_set.
    intuition.
Qed.

Lemma NoDup_update (other d : dict) :
  NoDup (Dict.keys d) -> NoDup (Dict.keys (Dict.update d other)).
Proof.
  revert d. induction other as [|[k v] other IH]; intros d Hnd; simpl.
  - assumption.
  - unfold Dict.update in *. simpl. apply IH. now apply DictFacts.NoDup_set.
Qed.

Section OrchestrationMore.

Variable json_load : string -> result json.
Variable json_dumps : json -> string.
Variable SeqeraPlatform : M unit.
Variable seqera_runs : list string -> M unit.

Lemma finish_cases (args : Namespace) (workflow_load workflow : json)
    (w4 : world) :
  finish json_dumps args workflow_load workflow w4
  = match parse_json workflow_load workflow_load_keys with
    | Raise e => (Raise e, snd (logging_info "Parsing workflow metadata..." w4))
    | Ok from_load =>
        match parse_json workflow workflow_keys with
        | Raise e =>
            (Raise e, snd (logging_info "Parsing workflow metadata..." w4))
        | Ok from_workflow =>
            match unwritable w4 (output args) with
            | Some e =>
                (Raise e,
                 snd (logging_info "Writing workflow metadata to JSON file..."
                        (snd (logging_info "Parsing workflow metadata..."
                                w4))))
            | None =>
                (Ok tt,
                 written json_dumps args
                   (Dict.merge from_load from_workflow) w4)
            end
        end
    end.
Proof.
  unfold finish. rewrite bind_logging_info.
  destruct (parse_json workflow_load workflow_load_keys) as [d1|e1];
    [|apply bind_lift_Raise].
  rewrite bind_lift_Ok.
  destruct (parse_json workflow workflow_keys) as [d2|e2];
    [|apply bind_lift_Raise].
  rewrite bind_lift_Ok, bind_logging_info.
  destruct (unwritable w4 (output args)) as [e|] eqn:Eo.
  - apply bind_write_file_fails. now rewrite !unwritable_logging_info.
  - rewrite bind_write_file by (now rewrite !unwritable_logging_info).
    rewrite logging_info_run. reflexivity.
Qed.

Lemma main_fetch_fails (args : Namespace) (w w' : world) (e : exn) :
  fetch SeqeraPlatform seqera_runs args w = (Raise e, w') ->
  main json_load json_dumps SeqeraPlatform seqera_runs args w = (Raise e, w').
Proof.
  intros Hfetch. unfold fetch in Hfetch. unfold main.
  rewrite bind_basicConfig in Hfetch. rewrite bind_basicConfig.
  unfold bind at 1 in Hfetch. unfold bind at 1.
  destruct (SeqeraPlatform _) as [[[]|e0] w1];
    [|injection Hfetch as -> ->; reflexivity].
  rewrite bind_logging_info in Hfetch. rewrite bind_logging_info.
  unfold bind at 1. now rewrite Hfetch.
Qed.

Lemma main_after_fetch (args : Namespace) (w w3 : world) (tar_file : string) :
  fetch SeqeraPlatform seqera_runs args w = (Ok tar_file, w3) ->
  main json_load json_dumps SeqeraPlatform seqera_runs args w
  = match extract_workflow_data json_load tar_file
            ["workflow-load.json"; "workflow.json"] (extracting w3) with
    | (Raise e, w4) => (Raise e, w4)
    | (Ok d, w4) =>
        if is_None (Dict.get d "workflow-load.json")
           || is_None (Dict.get d "workflow.json")
        then (Raise (ValueError missing_files_message), w4)
        else finish json_dumps args (Dict.get d "workflow-load.json")
               (Dict.get d "workflow.json") w4
    end.
Proof.
  intros Hfetch. unfold fetch in Hfetch. unfold main.
  rewrite bind_basicConfig in Hfetch. rewrite bind_basicConfig.
  unfold bind at 1 in Hfetch. unfold bind at 1.
  destruct (SeqeraPlatform _) as [[[]|e] w1]; [|discriminate].
  rewrite bind_logging_info in Hfetch. rewrite bind_logging_info.
  unfold bind at 1. rewrite Hfetch.
  rewrite bind_logging_info. fold (extracting w3).
  unfold bind at 1.
  destruct (extract_workflow_data json_load tar_file
              ["workflow-load.json"; "workflow.json"] (extracting w3))
    as [[d|e] w4]; [|reflexivity].
  cbv zeta.
  destruct (is_None (Dict.get d "workflow-load.json")
            || is_None (Dict.get d "workflow.json")); reflexivity.
Qed.

Lemma extract_workflow_data_world (tar_file : string) (names : list string)
    (w : world) :
  snd (extract_workflow_data json_load tar_file names w) = w.
Proof.
  unfold extract_workflow_data.
  now destruct (tarfile_open (files w) tar_file).
Qed.

Lemma files_written (args : Namespace) (json_data : dict) (w4 : world) :
  unwritable w4 (output args) = None ->
  files (written json_dumps args json_data w4) (output args)
  = Some (Plain (json_dumps (JObject json_data))) /\
  (forall p, p <> output args ->
             files (written json_dumps args json_data w4) p = files w4 p).
Proof.
  intros Hout. unfold written. rewrite files_logging_info.
  match goal with
  | |- context [write_file ?path ?text ?w0] =>
      destruct (files_write_file path text w0) as [Hnew Hold];
        [now rewrite !unwritable_logging_info|]
  end.
  split; [exact Hnew|].
  intros p Hp. rewrite (Hold p Hp). now rewrite !files_logging_info.
Qed.

(** X15.  When building the client or its [runs] call raises, [main] ends with
    that exception in the world the client left: it opens no archive and
    writes no file. *)
Theorem main_client_failure (args : Namespace) (w w' : world) (e : exn) :
  fetch SeqeraPlatform seqera_runs args w = (Raise e, w') ->
  main json_load json_dumps SeqeraPlatform seqera_runs args w = (Raise e, w').
Proof. apply main_fetch_fails. Qed.

(** X16.  What the selector raises, a missing or unreadable archive included,
    leaves [main] unchanged, and no file has been written by then. *)
Theorem main_selector_failure (args : Namespace) (w w3 : world)
    (tar_file : string) (e : exn) :
  fetch SeqeraPlatform seqera_runs args w = (Ok tar_file, w3) ->
  fst (extract_workflow_data json_load tar_file
         ["workflow-load.json"; "workflow.json"] (extracting w3)) = Raise e ->
  main json_load json_dumps SeqeraPlatform seqera_runs args w
  = (Raise e, extracting w3) /\
  files (extracting w3) = files w3.
Proof.
  intros Hfetch Hsel. split; [|apply files_logging_info].
  rewrite (main_after_fetch args w w3 tar_file Hfetch).
  pose proof (extract_workflow_data_world tar_file
                ["workflow-load.json"; "workflow.json"] (extracting w3)) as Hw.
  destruct (extract_workflow_data json_load tar_file
              ["workflow-load.json"; "workflow.json"] (extracting w3))
    as [[d|e0] w4]; simpl in *; congruence.
Qed.

(** X17.  A required member whose content decodes to null counts as missing:
    [main] raises the same [ValueError] as for an absent member, before
    anything is written. *)
Theorem main_null_member_counts_as_missing (args : Namespace) (w w3 : world)
    (tar_file : string) (members : list TarInfo) (d : dict) :
  fetch SeqeraPlatform seqera_runs args w = (Ok tar_file, w3) ->
  files w3 tar_file = Some (GzTar members) ->
  extract_members json_load members
    ["workflow-load.json"; "workflow.json"] [] = Ok d ->
  Dict.lookup "workflow-load.json" d = Some JNull \/
  Dict.lookup "workflow.json" d = Some JNull ->
  main json_load json_dumps SeqeraPlatform seqera_runs args w
  = (Raise (ValueError
              "Required workflow files not found in the tar archive."),
     extracting w3) /\
  files (extracting w3) = files w3.
Proof.
  intros Hfetch Hfile Hd Hnull. split; [|apply files_logging_info].
  rewrite (main_after_fetch args w w3 tar_file Hfetch).
  unfold extract_workflow_data, tarfile_open.
  unfold extracting at 1. rewrite files_logging_info, Hfile, Hd.
  unfold Dict.get.
  destruct Hnull as [-> | ->]; simpl; [reflexivity|].
  now rewrite orb_true_r.
Qed.

(** X18.  When either extraction raises, [main] ends with [AttributeError] and the
    files are as the download left them. *)
Theorem main_extraction_failure (args : Namespace) (w w3 : world)
    (tar_file : string) (members : list TarInfo) (d : dict) :
  fetch SeqeraPlatform seqera_runs args w = (Ok tar_file, w3) ->
  files w3 tar_file = Some (GzTar members) ->
  extract_members json_load members
    ["workflow-load.json"; "workflow.json"] [] = Ok d ->
  Dict.get d "workflow-load.json" <> JNull ->
  Dict.get d "workflow.json" <> JNull ->
  (exists e,
     parse_json (Dict.get d "workflow-load.json") workflow_load_keys = Raise e) \/
  (exists e,
     parse_json (Dict.get d "workflow.json") workflow_keys = Raise e) ->
  exists w',
    main json_load json_dumps SeqeraPlatform seqera_runs args w
    = (Raise AttributeError, w') /\
    files w' = files w3.
Proof.
  intros Hfetch Hfile Hd Hl Hw Hraise.
  exists (snd (logging_info "Parsing workflow metadata..." (extracting w3))).
  split; [|unfold extracting; now rewrite !files_logging_info].
  rewrite (main_after_fetch args w w3 tar_file Hfetch).
  unfold extract_workflow_data, tarfile_open.
  unfold extracting at 1. rewrite files_logging_info, Hfile, Hd.
  rewrite (is_None_false _ Hl), (is_None_false _ Hw).
  cbv beta iota delta [orb].
  rewrite finish_cases.
  destruct (parse_json (Dict.get d "workflow-load.json") workflow_load_keys)
    as [d1|e1] eqn:E1.
  - destruct Hraise as [[e He]|[e He]]; [discriminate|].
    rewrite He.
    now rewrite (parse_json_raises_AttributeError _ _ _ He).
  - now rewrite (parse_json_raises_AttributeError _ _ _ E1).
Qed.


(** X20.  When [main] runs to its end, the output file holds the encoding of one
    object whose keys are distinct and taken from the two fixed key lists,
    and none of whose values is null. *)
Theorem main_success_output (args : Namespace) (w w3 w' : world)
    (tar_file : string) :
  fetch SeqeraPlatform seqera_runs args w = (Ok tar_file, w3) ->
  main json_load json_dumps SeqeraPlatform seqera_runs args w = (Ok tt, w') ->
  exists json_data,
    files w' (output args) = Some (Plain (json_dumps (JObject json_data))) /\
    NoDup (Dict.keys json_data) /\
    (forall k, In k (Dict.keys json_data) ->
               In k workflow_load_keys \/ In k workflow_keys) /\
    (forall k v, Dict.lookup k json_data = Some v -> v <> JNull).
Proof.
  intros Hfetch.
  rewrite (main_after_fetch args w w3 tar_file Hfetch).
  destruct (extract_workflow_data json_load tar_file
              ["workflow-load.json"; "workflow.json"] (extracting w3))
    as [[d|e] w4]; [|discriminate].
  destruct (is_None (Dict.get d "workflow-load.json")
            || is_None (Dict.get d "workflow.json")); [discriminate|].
  rewrite finish_cases.
  destruct (parse_json (Dict.get d "workflow-load.json") workflow_load_keys)
    as [d1|e1] eqn:E1; [|discriminate].
  destruct (parse_json (Dict.get d "workflow.json") workflow_keys)
    as [d2|e2] eqn:E2; [|discriminate].
  destruct (unwritable w4 (output args)) as [e|] eqn:Eo; [discriminate|].
  intros H. injection H as <-.
  pose proof (parse_json_NoDup _ _ _ E1) as Hnd1.
  pose proof (parse_json_NoDup _ _ _ E2) as Hnd2.
  exists (Dict.merge d1 d2).
  split; [now apply files_written|].
  unfold Dict.merge. rewrite update_nil_NoDup by assumption.
  split; [now apply NoDup_update | split].
  - intros k Hk. apply In_keys_update in Hk. destruct Hk as [Hk|Hk].
    + left. now apply (parse_json_keys_subset _ _ _ E1).
    + right. now apply (parse_json_keys_subset _ _ _ E2).
  - intros k v. rewrite DictFacts.lookup_update by assumption.
    destruct (Dict.lookup k d2) as [v2|] eqn:Ek2.
    + intros H. injection H as <-.
      exact (parse_json_lookup_not_null _ _ _ _ _ E2 Ek2).
    + exact (parse_json_lookup_not_null _ _ _ _ _ E1).
Qed.

(** X21.  When [main] runs to its end at level INFO or DEBUG, it has logged the
    four progress messages after the download, in order; at a higher level
    it has logged nothing. *)
Theorem main_success_log (args : Namespace) (w w3 w' : world)
    (tar_file : string) :
  fetch SeqeraPlatform seqera_runs args w = (Ok tar_file, w3) ->
  main json_load json_dumps SeqeraPlatform seqera_runs args w = (Ok tt, w') ->
  log w'
  = if info_enabled (log_level w3)
    then log w3 ++ closing_messages args
    else log w3.
Proof.
  intros Hfetch.
  rewrite (main_after_fetch args w w3 tar_file Hfetch).
  pose proof (extract_workflow_data_world tar_file
                ["workflow-load.json"; "workflow.json"] (extracting w3)) as Hw.
  destruct (extract_workflow_data json_load tar_file
              ["workflow-load.json"; "workflow.json"] (extracting w3))
    as [[d|e] w4]; [|discriminate].
  simpl in Hw. subst w4.
  destruct (is_None (Dict.get d "workflow-load.json")
            || is_None (Dict.get d "workflow.json")); [discriminate|].
  rewrite finish_cases.
  destruct (parse_json (Dict.get d "workflow-load.json") workflow_load_keys)
    as [d1|e1]; [|discriminate].
  destruct (parse_json (Dict.get d "workflow.json") workflow_keys)
    as [d2|e2]; [|discriminate].
  destruct (unwritable (extracting w3) (output args)) as [e|]; [discriminate|].
  intros H. injection H as <-.
  unfold written, extracting, closing_messages.
  rewrite log_logging_info, log_write_file, log_level_write_file.
  rewrite !log_logging_info, !log_level_logging_info.
  destruct (info_enabled (log_level w3)); [|reflexivity].
  rewrite <- !app_assoc. reflexivity.
Qed.

End OrchestrationMore.

(** ** Closed instances for the orchestration *)

Lemma main_client_failure_witness :
  main (table_load sample_documents) keys_dumps (ret tt) failing_client
    sample_args empty_world
  = (Raise (ClientError "401 Unauthorized"),
     snd (fetch (ret tt) failing_client sample_args empty_world)).
Proof.
  exact (main_client_failure (table_load sample_documents) keys_dumps (ret tt)
           failing_client sample_args empty_world
           (snd (fetch (ret tt) failing_client sample_args empty_world))
           (ClientError "401 Unauthorized") eq_refl).
Defined.

Lemma main_selector_failure_witness :
  main (table_load sample_documents) keys_dumps (ret tt)
    (archive_client broken_archive) sample_args empty_world
  = (Raise (JSONDecodeError "Expecting value"),
     extracting (snd (fetch (ret tt) (archive_client broken_archive)
                        sample_args empty_world))) /\
  files (extracting (snd (fetch (ret tt) (archive_client broken_archive)
                            sample_args empty_world)))
  = files (snd (fetch (ret tt) (archive_client broken_archive)
                  sample_args empty_world)).
Proof.
  exact (main_selector_failure (table_load sample_documents) keys_dumps
           (ret tt) (archive_client broken_archive) sample_args empty_world
           (snd (fetch (ret tt) (archive_client broken_archive)
                   sample_args empty_world))
           "42.tar.gz" (JSONDecodeError "Expecting value") eq_refl eq_refl).
Defined.

Lemma main_null_member_counts_as_missing_witness :
  main (table_load sample_documents) keys_dumps (ret tt)
    (archive_client null_archive) sample_args empty_world
  = (Raise (ValueError
              "Required workflow files not found in the tar archive."),
     extracting (snd (fetch (ret tt) (archive_client null_archive)
                        sample_args empty_world))) /\
  files (extracting (snd (fetch (ret tt) (archive_client null_archive)
                            sample_args empty_world)))
  = files (snd (fetch (ret tt) (archive_client null_archive)
                  sample_args empty_world)).
Proof.
  apply (main_null_member_counts_as_missing
           (table_load sample_documents) keys_dumps (ret tt)
           (archive_client null_archive) sample_args empty_world
           (snd (fetch (ret tt) (archive_client null_archive)
                   sample_args empty_world))
           "42.tar.gz" null_archive
           [ ("workflow-load.json", JObject [("cost", JInt 2)]);
             ("workflow.json", JNull) ]).
  - reflexivity.
  - reflexivity.
  - reflexivity.
  - right. reflexivity.
Defined.

Lemma main_extraction_failure_witness :
  exists w',
    main (table_load more_documents) keys_dumps (ret tt)
      (archive_client list_archive) sample_args empty_world
    = (Raise AttributeError, w') /\
    files w'
    = files (snd (fetch (ret tt) (archive_client list_archive)
                    sample_args empty_world)).
Proof.
  apply (main_extraction_failure
           (table_load more_documents) keys_dumps (ret tt)
           (archive_client list_archive) sample_args empty_world
           (snd (fetch (ret tt) (archive_client list_archive)
                   sample_args empty_world))
           "42.tar.gz" list_archive
           [ ("workflow-load.json", JArray []);
             ("workflow.json", JObject [("id", JInt 7)]) ]).
  - reflexivity.
  - reflexivity.
  - reflexivity.
  - discriminate.
  - discriminate.
  - left. exists AttributeError. reflexivity.
Defined.


Lemma main_success_output_witness :
  exists json_data,
    files (snd (main (table_load sample_documents) keys_dumps (ret tt)
                  (archive_client full_archive) sample_args empty_world))
      (output sample_args)
    = Some (Plain (keys_dumps (JObject json_data))) /\
    NoDup (Dict.keys json_data) /\
    (forall k, In k (Dict.keys json_data) ->
               In k workflow_load_keys \/ In k workflow_keys) /\
    (forall k v, Dict.lookup k json_data = Some v -> v <> JNull).
Proof.
  exact (main_success_output (table_load sample_documents) keys_dumps
           (ret tt) (archive_client full_archive) sample_args empty_world
           (snd (fetch (ret tt) (archive_client full_archive)
                   sample_args empty_world))
           (snd (main (table_load sample_documents) keys_dumps (ret tt)
                   (archive_client full_archive) sample_args empty_world))
           "42.tar.gz" eq_refl eq_refl).
Defined.

Lemma main_success_log_witness :
  log (snd (main (table_load sample_documents) keys_dumps (ret tt)
              (archive_client full_archive) sample_args empty_world))
  = [ "Getting workflow run data...";
      "Extracting workflow metadata...";
      "Parsing workflow metadata...";
      "Writing workflow metadata to JSON file...";
      "Workflow metadata written to out.json." ].
Proof.
  exact (main_success_log (table_load sample_documents) keys_dumps
           (ret tt) (archive_client full_archive) sample_args empty_world
           (snd (fetch (ret tt) (archive_client full_archive)
                   sample_args empty_world))
           (snd (main (table_load sample_documents) keys_dumps (ret tt)
                   (archive_client full_archive) sample_args empty_world))
           "42.tar.gz" eq_refl eq_refl).
Defined.

(** X14.  When the download returns, the archive path [main] goes on to open
    is the workflow id followed by ".tar.gz", and it is the path the client
    was told to write, in the command
    [dump -id <id> -o <id>.tar.gz -w <workspace>]. *)
Theorem fetch_archive_path (SeqeraPlatform : M unit)
    (seqera_runs : list string -> M unit) (args : Namespace) (w w3 : world)
    (tar_file : string) :
  fetch SeqeraPlatform seqera_runs args w = (Ok tar_file, w3) ->
  tar_file = (workflow_id args ++ ".tar.gz")%string /\
  exists w2,
    seqera_runs
      ["dump"; "-id"; workflow_id args; "-o"; tar_file; "-w"; workspace args]
      w2
    = (Ok tt, w3).
Proof.
  unfold fetch. rewrite bind_basicConfig. unfold bind at 1.
  destruct (SeqeraPlatform _) as [[[]|e] w1]; [|discriminate].
  rewrite bind_logging_info. intros H.
  apply get_runs_dump_path in H. destruct H as [Hpath Hruns].
  split; [exact Hpath | eauto].
Qed.

Lemma fetch_archive_path_witness :
  "42.tar.gz" = (workflow_id sample_args ++ ".tar.gz")%string /\
  exists w2,
    archive_client full_archive
      ["dump"; "-id"; workflow_id sample_args; "-o"; "42.tar.gz"; "-w";
       workspace sample_args]
      w2
    = (Ok tt,
       snd (fetch (ret tt) (archive_client full_archive)
              sample_args empty_world)).
Proof.
  exact (fetch_archive_path (ret tt) (archive_client full_archive)
           sample_args empty_world
           (snd (fetch (ret tt) (archive_client full_archive)
                   sample_args empty_world))
           "42.tar.gz" eq_refl).
Defined.

(** ** The output path *)

Section OutputPath.

Variable json_load : string -> result json.
Variable json_dumps : json -> string.
Variable SeqeraPlatform : M unit.
Variable seqera_runs : list string -> M unit.

(** X22.  When both extractions return but the output path cannot be opened
    for writing, [main] ends with what [open] raises, after the extraction,
    and the files are as the download left them. *)
Theorem main_output_unwritable (args : Namespace) (w w3 : world)
    (tar_file : string) (members : list TarInfo)
    (d from_load from_workflow : dict) (e : exn) :
  fetch SeqeraPlatform seqera_runs args w = (Ok tar_file, w3) ->
  files w3 tar_file = Some (GzTar members) ->
  extract_members json_load members
    ["workflow-load.json"; "workflow.json"] [] = Ok d ->
  Dict.get d "workflow-load.json" <> JNull ->
  Dict.get d "workflow.json" <> JNull ->
  parse_json (Dict.get d "workflow-load.json") workflow_load_keys
  = Ok from_load ->
  parse_json (Dict.get d "workflow.json") workflow_keys = Ok from_workflow ->
  unwritable w3 (output args) = Some e ->
  exists w',
    main json_load json_dumps SeqeraPlatform seqera_runs args w
    = (Raise e, w') /\
    files w' = files w3.
Proof.
  intros Hfetch Hfile Hd Hl Hw Hp1 Hp2 Hout.
  rewrite (main_after_fetch json_load json_dumps SeqeraPlatform seqera_runs
             args w w3 tar_file Hfetch).
  unfold extract_workflow_data, tarfile_open.
  unfold extracting at 1. rewrite files_logging_info, Hfile, Hd.
  rewrite (is_None_false _ Hl), (is_None_false _ Hw).
  cbv beta iota delta [orb].
  rewrite finish_cases, Hp1, Hp2.
  unfold extracting at 1. rewrite unwritable_logging_info, Hout.
  eexists. split; [reflexivity|].
  unfold extracting. now rewrite !files_logging_info.
Qed.

End OutputPath.

Lemma main_output_unwritable_witness :
  exists w',
    main (table_load sample_documents) keys_dumps (ret tt)
      (archive_client full_archive) nodir_args nodir_world
    = (Raise FileNotFoundError, w') /\
    files w'
    = files (snd (fetch (ret tt) (archive_client full_archive)
                    nodir_args nodir_world)).
Proof.
  apply (main_output_unwritable
           (table_load sample_documents) keys_dumps (ret tt)
           (archive_client full_archive) nodir_args nodir_world
           (snd (fetch (ret tt) (archive_client full_archive)
                   nodir_args nodir_world))
           "42.tar.gz" full_archive
           [ ("workflow-load.json", JObject [("cost", JInt 2)]);
             ("workflow.json", JObject [("id", JInt 7)]) ]
           [("cost", JInt 2)] [("id", JInt 7)] FileNotFoundError).
  - reflexivity.
  - reflexivity.
  - reflexivity.
  - discriminate.
  - discriminate.
  - reflexivity.
  - reflexivity.
  - reflexivity.
Defined.

Example main_nodir_output_absent :
  files (snd (main (table_load sample_documents) keys_dumps (ret tt)
                (archive_client full_archive) nodir_args nodir_world))
    "nodir/out.json"
  = None.
Proof. reflexivity. Qed.
